(** * lark/visitors.py: transformers, visitors and the handler decorators

    A shallow embedding of the tree-walking strategies of lark and of the
    decorators that record a handler's calling convention.

    Python values are an inductive type; a method that may raise or touch the
    state of its holder is a function in a state-and-exception monad; the
    attribute dictionary of a holder object is a finite map from names to
    callables. *)

From stdpp Require Import gmap strings list sorting.
From Stdlib Require Import ZArith Lia Ascii.

Open Scope string_scope.
Open Scope list_scope.

(** ** Python values and effects *)

(** Exceptions.  [Discard] is the class declared in visitors.py; the others
    are the built-in exceptions the module raises or runs into. *)
Inductive exn :=
| Discard
| AttributeError
| TypeError
| ValueError
| AssertionError
| RecursionError
| Error (msg : string).

#[global] Instance exn_eq_dec : EqDecision exn.
Proof. solve_decision. Defined.

Inductive result (A : Type) :=
| Ok (a : A)
| Raise (e : exn).
Arguments Ok {A} a.
Arguments Raise {A} e.

(** Induction principles that go through the lists nested in a type. *)
Scheme All for list.
Scheme All for Forall3.

(** Modelled from the spec: the node type [Tree] of lark.tree, which this
    file imports: a tag ([data]), an ordered sequence of children, each a
    node or a leaf, and a metadata record, opaque here.  Every other
    constructor is a leaf for the traversals: strings (tokens), numbers,
    lists, a metadata record passed as an argument, any other object. *)
Inductive value (Meta : Type) :=
| Tree (data : string) (children : list (value Meta)) (meta : Meta)
| PyStr (s : string)
| PyInt (z : Z)
| PyList (items : list (value Meta))
| PyMeta (m : Meta)
| PyObject (repr : string).
Arguments Tree {Meta} data children meta.
Arguments PyStr {Meta} s.
Arguments PyInt {Meta} z.
Arguments PyList {Meta} items.
Arguments PyMeta {Meta} m.
Arguments PyObject {Meta} repr.

(** [isinstance(c, Tree)] *)
Definition isinstance_Tree {Meta} (c : value Meta) : bool :=
  match c with Tree _ _ _ => true | _ => false end.

(** A computation over the holder's state [St] that returns or raises.  A
    raise keeps the state reached so far: Python does not roll back. *)
Definition M (St A : Type) : Type := St -> result A * St.

Definition ret {St A} (a : A) : M St A := fun s => (Ok a, s).
Definition raise {St A} (e : exn) : M St A := fun s => (Raise e, s).
Definition bind {St A B} (m : M St A) (k : A -> M St B) : M St B :=
  fun s => match m s with
           | (Ok a, s') => k a s'
           | (Raise e, s') => (Raise e, s')
           end.

Notation "'let!' x ':=' m 'in' k" := (bind m (fun x => k))
  (at level 10, x name, m at level 100, k at level 200).

(** A callable attribute: a function as it is written, or a function that
    forwards its arguments to another one and carries the attributes [inline]
    and [meta], the function object [_visitor_args_func_dec] returns. *)
Inductive callable (Meta St : Type) :=
| Function (body : list (value Meta) -> M St (value Meta))
| Wrapper (inline meta : bool) (wrapped : callable Meta St).
Arguments Function {Meta St} body.
Arguments Wrapper {Meta St} inline meta wrapped.

(** [getattr(f, 'meta', False)] and [getattr(f, 'inline', False)] *)
Definition getattr_meta {Meta St} (f : callable Meta St) : bool :=
  match f with Wrapper _ meta _ => meta | Function _ => false end.
Definition getattr_inline {Meta St} (f : callable Meta St) : bool :=
  match f with Wrapper inline _ _ => inline | Function _ => false end.

(** [f( *args )] *)
Fixpoint call {Meta St} (f : callable Meta St) (args : list (value Meta))
  : M St (value Meta) :=
  match f with
  | Function body => body args
  | Wrapper _ _ g => call g args
  end.

(** The attributes [getattr(self, name)] finds on a holder. *)
Abbreviation holder Meta St := (gmap string (callable Meta St)).

(** [name.startswith('_')] *)
Definition startswith_underscore (name : string) : bool :=
  match name with
  | String c _ => bool_decide (c = "_"%char)
  | EmptyString => false
  end.

(** ** Transformers *)

(** The bottom-up walk of [Transformer], over whatever [self._call_userfunc]
    resolves to. *)
Module Traversal.
Section traversal.
Context {Meta St : Type}.
Variable _call_userfunc : string -> list (value Meta) -> Meta -> M St (value Meta).

(** [tree.children] and the two other fields exist on a [Tree] only. *)
Fixpoint _transform_tree (tree : value Meta) : M St (value Meta) :=
  match tree with
  | Tree data children meta =>
      let! children :=
        (fix _transform_children (children : list (value Meta))
           : M St (list (value Meta)) :=
           match children with
           | [] => ret []
           | c :: rest => fun s =>
               match (if isinstance_Tree c then _transform_tree c else ret c) s with
               | (Ok v, s') => (let! vs := _transform_children rest in ret (v :: vs)) s'
               | (Raise Discard, s') => _transform_children rest s'
               | (Raise e, s') => (Raise e, s')
               end
           end) children in
      _call_userfunc data children meta
  | _ => raise AttributeError
  end.

(** [list(self._transform_children(children))]: the generator, run to its
    end. *)
Fixpoint _transform_children (children : list (value Meta))
  : M St (list (value Meta)) :=
  match children with
  | [] => ret []
  | c :: rest => fun s =>
      match (if isinstance_Tree c then _transform_tree c else ret c) s with
      | (Ok v, s') => (let! vs := _transform_children rest in ret (v :: vs)) s'
      | (Raise Discard, s') => _transform_children rest s'
      | (Raise e, s') => (Raise e, s')
      end
  end.

Definition transform (tree : value Meta) : M St (value Meta) :=
  _transform_tree tree.
End traversal.
End Traversal.

(** A class object: the names its body defines and [getmro(cls)[1:]].  The
    members of [object] all start with an underscore and are left out. *)
Inductive pyclass (Meta St : Type) :=
| Class (dict : gmap string (callable Meta St)) (bases : list (pyclass Meta St)).
Arguments Class {Meta St} dict bases.

Module Inspect.
(** The order [sorted] puts names in. *)
Definition name_le (s1 s2 : string) : Prop := String.leb s1 s2 = true.

#[global] Instance name_le_dec : RelDecision name_le :=
  fun s1 s2 => decide (String.leb s1 s2 = true).

Section inspect.
Context {Meta St : Type}.
Implicit Types (cls : pyclass Meta St).

Definition class_dict cls : gmap string (callable Meta St) :=
  match cls with Class dict _ => dict end.

Definition getmro cls : list (pyclass Meta St) :=
  match cls with Class _ bases => cls :: bases end.

(** [dir(cls)]: the names defined by the class or by a class of its MRO. *)
Definition dir cls : gset string :=
  ⋃ (map (fun c => dom (class_dict c)) (getmro cls)).

(** [getattr(cls, name)]: the first definition along the MRO. *)
Definition getattr cls (name : string) : option (callable Meta St) :=
  foldr (fun c inherited =>
           match class_dict c !! name with
           | Some v => Some v
           | None => inherited
           end) None (getmro cls).

(** [getmembers(cls)]: the (name, value) pairs, sorted by name. *)
Definition getmembers cls : list (string * callable Meta St) :=
  omap (fun name => (fun v => (name, v)) <$> getattr cls name)
       (merge_sort name_le (elements (dir cls))).

Definition setattr cls (name : string) (v : callable Meta St) : pyclass Meta St :=
  match cls with Class dict bases => Class (<[name := v]> dict) bases end.
End inspect.
End Inspect.

Module Transformer.
Section methods.
Context {Meta St : Type}.
Implicit Types (self : holder Meta St) (children : list (value Meta)).

(** The library's [__default__]: [Tree(data, children, meta)].  The fields
    of a [Tree] are typed here, so arguments of another kind are refused. *)
Definition __default__ : callable Meta St :=
  Function (fun args =>
    match args with
    | [PyStr data; PyList children; PyMeta meta] => ret (Tree data children meta)
    | _ => raise TypeError
    end).

(** [self.__default__(data, children, meta)] *)
Definition call___default__ self (data : string) children (meta : Meta)
  : M St (value Meta) :=
  match self !! "__default__" with
  | Some f => call f [PyStr data; PyList children; PyMeta meta]
  | None => raise AttributeError
  end.

Definition _call_userfunc self (data : string) children (meta : Meta)
  : M St (value Meta) :=
  match self !! data with
  | None => call___default__ self data children meta
  | Some f =>
      if getattr_meta f then call f [PyList children; PyMeta meta]
      else if getattr_inline f then call f children
      else call f [PyList children]
  end.

Definition _transform_children self children : M St (list (value Meta)) :=
  Traversal._transform_children (_call_userfunc self) children.

Definition _transform_tree self (tree : value Meta) : M St (value Meta) :=
  Traversal._transform_tree (_call_userfunc self) tree.

Definition transform self (tree : value Meta) : M St (value Meta) :=
  _transform_tree self tree.

(** The names class [Transformer] itself defines. *)
Definition class_names : list string :=
  ["__default__"; "__mul__"; "_apply_decorator"; "_call_userfunc";
   "_transform_children"; "_transform_tree"; "transform"].

(** The methods of class [Transformer] as [getattr] finds them on an instance
    of a subclass whose body defines [methods]: bound to [self], without
    [meta] or [inline] attributes.  [self] is [None] once the depth of
    re-entrant calls is used up. *)
Definition bound_methods (methods : holder Meta St) (self : option (holder Meta St))
  : holder Meta St :=
  list_to_map [
    ("__default__", __default__);
    ("__mul__", Function (fun args =>
       match args with
       | [_] => ret (PyObject "TransformerChain")
       | _ => raise TypeError
       end));
    ("_apply_decorator", Function (fun args =>
       match args with
       | [_] =>
           (* the argument is called on the first public member that no
              class of the MRO names; values are not callable *)
           if bool_decide (Exists (fun name =>
                startswith_underscore name = false ∧ name ∉ class_names)
                (elements (dom methods)))
           then raise TypeError
           else ret (PyObject "class")
       | _ => raise TypeError
       end));
    ("_call_userfunc", Function (fun args =>
       match args, self with
       | [PyStr data; PyList children; PyMeta meta], Some self =>
           _call_userfunc self data children meta
       | [_; _; _], None => raise RecursionError
       | _, _ => raise TypeError
       end));
    ("_transform_children", Function (fun args =>
       match args with
       | [_] => ret (PyObject "generator")
       | _ => raise TypeError
       end));
    ("_transform_tree", Function (fun args =>
       match args, self with
       | [tree], Some self => _transform_tree self tree
       | [_], None => raise RecursionError
       | _, _ => raise TypeError
       end));
    ("transform", Function (fun args =>
       match args, self with
       | [tree], Some self => transform self tree
       | [_], None => raise RecursionError
       | _, _ => raise TypeError
       end))
  ].

(** An instance of [class X(Transformer)] whose body defines [methods]. *)
Fixpoint instance (methods : holder Meta St) (depth : nat) : holder Meta St :=
  methods ∪ bound_methods methods
              (match depth with 0 => None | S d => Some (instance methods d) end).

(** The class method.  The state is the class object, which [setattr]
    mutates; a raise of the decorator leaves the members wrapped so far.
    [decorator] stands for [decorator(value, **kwargs)], the keyword
    arguments being fixed; [mro[0] is cls] holds by [Inspect.getmro]. *)
Fixpoint _apply_decorator_loop (libmembers : gset string)
    (decorator : callable Meta St -> result (callable Meta St))
    (members : list (string * callable Meta St)) : M (pyclass Meta St) unit :=
  match members with
  | [] => ret tt
  | (name, value) :: rest =>
      if startswith_underscore name || bool_decide (name ∈ libmembers)
      then _apply_decorator_loop libmembers decorator rest
      else fun cls =>
        match decorator value with
        | Ok f => _apply_decorator_loop libmembers decorator rest
                    (Inspect.setattr cls name f)
        | Raise e => (Raise e, cls)
        end
  end.

Definition _apply_decorator
    (decorator : callable Meta St -> result (callable Meta St))
  : M (pyclass Meta St) (pyclass Meta St) :=
  fun cls =>
    let mro := Inspect.getmro cls in
    let libmembers : gset string :=
      ⋃ (map (fun _cls => list_to_set (map fst (Inspect.getmembers _cls)))
             (tail mro)) in
    (let! _ := _apply_decorator_loop libmembers decorator (Inspect.getmembers cls) in
     fun cls => (Ok cls, cls)) cls.
End methods.
End Transformer.

(** A transform strategy: a [Transformer] instance or a [TransformerChain]. *)
Inductive transformer (Meta St : Type) :=
| Instance (self : holder Meta St)
| Chain (transformers : list (transformer Meta St)).
Arguments Instance {Meta St} self.
Arguments Chain {Meta St} transformers.

Module TransformerChain.
Section methods.
Context {Meta St : Type}.

(** [t.transform(tree)], for a stage [t] of either class; on a chain this is
    the loop of [TransformerChain.transform]. *)
Fixpoint transform (t : transformer Meta St) (tree : value Meta) : M St (value Meta) :=
  match t with
  | Instance self => Transformer.transform self tree
  | Chain transformers =>
      (fix loop (ts : list (transformer Meta St)) (tree : value Meta) :=
         match ts with
         | [] => ret tree
         | t :: ts => let! tree := transform t tree in loop ts tree
         end) transformers tree
  end.

(** [Transformer.__mul__] and [TransformerChain.__mul__] *)
Definition __mul__ (self other : transformer Meta St) : transformer Meta St :=
  match self with
  | Instance _ => Chain [self; other]
  | Chain transformers => Chain (transformers ++ [other])
  end.
End methods.
End TransformerChain.

(** ** Transformers over tree objects

    [Transformer_InPlaceRecursive] assigns to [tree.children], so here the
    trees the caller holds are objects of a store, addressed by location.  A
    child slot holds a reference to such an object or any other value; a
    [Tree] built by a handler is a value of its own, which no object of the
    store shares.  Handlers are given values and return values: they neither
    hold a reference to an object of the store nor change the list they are
    called with. *)
Module Objects.
Definition loc := nat.

Inductive child (Meta : Type) :=
| Ref (l : loc)
| Val (v : value Meta).
Arguments Ref {Meta} l.
Arguments Val {Meta} v.

Record tree_object (Meta : Type) := New_tree {
  obj_data : string;
  obj_children : list (child Meta);
  obj_meta : Meta
}.
Arguments New_tree {Meta} _ _ _.
Arguments obj_data {Meta} _.
Arguments obj_children {Meta} _.
Arguments obj_meta {Meta} _.

Definition store (Meta : Type) := loc -> tree_object Meta.

Section store.
Context {Meta St : Type}.

(** [tree] with every field read at once *)
Definition get_object (tree : loc) : M (store Meta * St) (tree_object Meta) :=
  fun σ => (Ok (σ.1 tree), σ).

(** [tree.children = children] *)
Definition assign_children (tree : loc) (children : list (child Meta))
  : M (store Meta * St) unit :=
  fun σ =>
    (Ok tt,
     (fun l => if decide (l = tree)
               then New_tree (obj_data (σ.1 l)) children (obj_meta (σ.1 l))
               else σ.1 l,
      σ.2)).

(** A call that does not touch the store. *)
Definition lift {A} (m : M St A) : M (store Meta * St) A :=
  fun σ => let '(r, s) := m σ.2 in (r, (σ.1, s)).
End store.
End Objects.

(** The methods of [Transformer] on a tree object: what [Traversal] does on a
    value, the fields being read from the store.  [depth] bounds the nesting
    of calls. *)
Module Transformer_obj.
Import Objects.
Section methods.
Context {Meta St : Type}.
Variable self : holder Meta St.

Fixpoint _transform_tree (depth : nat) (tree : loc) : M (store Meta * St) (value Meta) :=
  match depth with
  | 0 => raise RecursionError
  | S depth =>
      let! o := get_object tree in
      let! children :=
        (fix _transform_children (children : list (child Meta))
           : M (store Meta * St) (list (value Meta)) :=
           match children with
           | [] => ret []
           | c :: rest => fun σ =>
               match (match c with
                      | Ref l => _transform_tree depth l
                      | Val v => if isinstance_Tree v
                                 then lift (Transformer._transform_tree self v)
                                 else ret v
                      end) σ with
               | (Ok v, σ') => (let! vs := _transform_children rest in ret (v :: vs)) σ'
               | (Raise Discard, σ') => _transform_children rest σ'
               | (Raise e, σ') => (Raise e, σ')
               end
           end) (obj_children o) in
      lift (Transformer._call_userfunc self (obj_data o) children (obj_meta o))
  end.

Definition _transform_children (depth : nat)
  : list (child Meta) -> M (store Meta * St) (list (value Meta)) :=
  fix _transform_children (children : list (child Meta)) :=
    match children with
    | [] => ret []
    | c :: rest => fun σ =>
        match (match c with
               | Ref l => _transform_tree depth l
               | Val v => if isinstance_Tree v
                          then lift (Transformer._transform_tree self v)
                          else ret v
               end) σ with
        | (Ok v, σ') => (let! vs := _transform_children rest in ret (v :: vs)) σ'
        | (Raise Discard, σ') => _transform_children rest σ'
        | (Raise e, σ') => (Raise e, σ')
        end
    end.

Definition transform (depth : nat) (tree : loc) : M (store Meta * St) (value Meta) :=
  _transform_tree depth tree.

(** What the generator yields for one child. *)
Definition reduce (depth : nat) (c : child Meta) : M (store Meta * St) (value Meta) :=
  match c with
  | Ref l => _transform_tree depth l
  | Val v => if isinstance_Tree v
             then lift (Transformer._transform_tree self v)
             else ret v
  end.
End methods.
End Transformer_obj.

Module Transformer_InPlaceRecursive.
Import Objects.
Section methods.
Context {Meta St : Type}.
Variable self : holder Meta St.

(** The list assigned to [tree.children] is the one handed to
    [_call_userfunc] on the next line. *)
Fixpoint _transform_tree (depth : nat) (tree : loc) : M (store Meta * St) (value Meta) :=
  match depth with
  | 0 => raise RecursionError
  | S depth =>
      let! o := get_object tree in
      let! children :=
        (fix _transform_children (children : list (child Meta))
           : M (store Meta * St) (list (value Meta)) :=
           match children with
           | [] => ret []
           | c :: rest => fun σ =>
               match (match c with
                      | Ref l => _transform_tree depth l
                      | Val v => if isinstance_Tree v
                                 then lift (Transformer._transform_tree self v)
                                 else ret v
                      end) σ with
               | (Ok v, σ') => (let! vs := _transform_children rest in ret (v :: vs)) σ'
               | (Raise Discard, σ') => _transform_children rest σ'
               | (Raise e, σ') => (Raise e, σ')
               end
           end) (obj_children o) in
      let! _ := assign_children tree (map Val children) in
      let! o := get_object tree in
      lift (Transformer._call_userfunc self (obj_data o) children (obj_meta o))
  end.

Definition _transform_children (depth : nat)
  : list (child Meta) -> M (store Meta * St) (list (value Meta)) :=
  fix _transform_children (children : list (child Meta)) :=
    match children with
    | [] => ret []
    | c :: rest => fun σ =>
        match (match c with
               | Ref l => _transform_tree depth l
               | Val v => if isinstance_Tree v
                          then lift (Transformer._transform_tree self v)
                          else ret v
               end) σ with
        | (Ok v, σ') => (let! vs := _transform_children rest in ret (v :: vs)) σ'
        | (Raise Discard, σ') => _transform_children rest σ'
        | (Raise e, σ') => (Raise e, σ')
        end
    end.

Definition transform (depth : nat) (tree : loc) : M (store Meta * St) (value Meta) :=
  _transform_tree depth tree.

(** What the generator yields for one child. *)
Definition reduce (depth : nat) (c : child Meta) : M (store Meta * St) (value Meta) :=
  match c with
  | Ref l => _transform_tree depth l
  | Val v => if isinstance_Tree v
             then lift (Transformer._transform_tree self v)
             else ret v
  end.
End methods.
End Transformer_InPlaceRecursive.

(** ** The top-down interpreter *)

Module Interpreter.
(** A method takes [self], here the operation [self.<name>(arg)], and the
    tree. *)
Abbreviation method Meta St :=
  ((string -> value Meta -> M St (value Meta)) -> value Meta -> M St (value Meta)).

Section methods.
Context {Meta St : Type}.

Definition visit : method Meta St :=
  fun self tree =>
    match tree with
    | Tree data _ _ => self data tree
    | _ => raise AttributeError
    end.

(** The list comprehension of [visit_children]. *)
Fixpoint comprehension (visit : value Meta -> M St (value Meta))
    (children : list (value Meta)) : M St (list (value Meta)) :=
  match children with
  | [] => ret []
  | child :: rest =>
      let! v := (if isinstance_Tree child then visit child else ret child) in
      let! vs := comprehension visit rest in
      ret (v :: vs)
  end.

Definition visit_children : method Meta St :=
  fun self tree =>
    match tree with
    | Tree _ children _ =>
        let! vs := comprehension (self "visit") children in ret (PyList vs)
    | _ => raise AttributeError
    end.

(** Called as a method, [__getattr__] returns [self.__default__] uncalled. *)
Definition __getattr__ : method Meta St :=
  fun self name => ret (PyObject "bound method __default__").

Definition __default__ : method Meta St :=
  fun self tree => self "visit_children" tree.

Definition class_dict : gmap string (method Meta St) :=
  list_to_map [("visit", visit); ("visit_children", visit_children);
               ("__getattr__", __getattr__); ("__default__", __default__)].

(** [self.<name>(arg)] on an instance of a subclass whose body defines
    [methods] (and leaves [__getattr__] alone): the normal lookup, and on a
    miss [__getattr__], which answers [self.__default__].  [depth] bounds the
    nesting of calls, as the interpreter's recursion limit does. *)
Fixpoint send (methods : gmap string (method Meta St)) (depth : nat)
    (name : string) (arg : value Meta) : M St (value Meta) :=
  match depth with
  | 0 => raise RecursionError
  | S depth =>
      let self := send methods depth in
      match (methods ∪ class_dict) !! name with
      | Some f => f self arg
      | None =>
          match (methods ∪ class_dict) !! "__default__" with
          | Some f => f self arg
          | None => raise AttributeError
          end
      end
  end.
End methods.
End Interpreter.

(** ** Decorators *)

(** What a decorator is applied to: a function, or a class that has
    [_apply_decorator]. *)
Inductive decoratable (Meta St : Type) :=
| Func (f : callable Meta St)
| Cls (cls : pyclass Meta St).
Arguments Func {Meta St} f.
Arguments Cls {Meta St} cls.

Section decorators.
Context {Meta St : Type}.

(** The result records the object returned; for a class, the mutation is
    that of [Transformer._apply_decorator]. *)
Definition _apply_decorator (obj : decoratable Meta St)
    (decorator : callable Meta St -> result (callable Meta St))
  : result (decoratable Meta St) :=
  match obj with
  | Cls cls =>
      match Transformer._apply_decorator decorator cls with
      | (Ok cls', _) => Ok (Cls cls')
      | (Raise e, _) => Raise e
      end
  | Func f =>
      match decorator f with
      | Ok f' => Ok (Func f')
      | Raise e => Raise e
      end
  end.

(** Modelled from the spec: [smart_decorator] of lark.utils, which this file
    imports.  It hands back the function [create_decorator] builds, here the
    one that forwards its arguments to [func]; [wraps] copies the attributes
    of [func] onto it. *)
Definition smart_decorator (func : callable Meta St) : callable Meta St :=
  Wrapper (getattr_inline func) (getattr_meta func) func.

(** [f.inline = inline] and [f.meta = meta] *)
Definition set_flags (f : callable Meta St) (inline meta : bool) : callable Meta St :=
  match f with
  | Wrapper _ _ g => Wrapper inline meta g
  | Function _ => Wrapper inline meta f
  end.

Definition _visitor_args_func_dec (func : callable Meta St) (inline meta : bool)
  : result (callable Meta St) :=
  if inline && meta then Raise AssertionError
  else
    let f := smart_decorator func in
    Ok (set_flags f inline meta).

Definition visitor_args (inline meta : bool)
  : result (decoratable Meta St -> result (decoratable Meta St)) :=
  if inline && meta then Raise ValueError
  else Ok (fun obj =>
             _apply_decorator obj (fun f => _visitor_args_func_dec f inline meta)).
End decorators.

(** ** Notions the properties are stated with *)

Section notions.
Context {Meta St : Type}.
Implicit Types (dispatch : string -> list (value Meta) -> Meta -> M St (value Meta)).

(** The tags of the nodes of a tree. *)
Fixpoint tags (tree : value Meta) : list string :=
  match tree with
  | Tree data children _ => data :: flat_map tags children
  | _ => []
  end.

(** The nodes of a tree, children before their parent, left to right: each
    by its tag and metadata. *)
Fixpoint postorder (tree : value Meta) : list (string * Meta) :=
  match tree with
  | Tree data children meta => flat_map postorder children ++ [(data, meta)]
  | _ => []
  end.

(** The number of nested [_transform_tree] calls a tree needs. *)
Fixpoint height (tree : value Meta) : nat :=
  match tree with
  | Tree _ children _ => S (foldr (fun c n => height c `max` n) 0 children)
  | _ => 0
  end.

(** The reduction of one child: a node is transformed, a leaf is itself. *)
Definition reduce dispatch (c : value Meta) : M St (value Meta) :=
  if isinstance_Tree c then Traversal._transform_tree dispatch c else ret c.

(** [reduced dispatch cs s vs s']: reducing the children [cs] in order from
    state [s] ends in [s'], each reduction returning or raising [Discard], and
    [vs] are the values returned, in the order of their children. *)
Inductive reduced dispatch : list (value Meta) -> St -> list (value Meta) -> St -> Prop :=
| reduced_nil s : reduced dispatch [] s [] s
| reduced_keep c cs s v s1 vs s' :
    reduce dispatch c s = (Ok v, s1) ->
    reduced dispatch cs s1 vs s' ->
    reduced dispatch (c :: cs) s (v :: vs) s'
| reduced_drop c cs s s1 vs s' :
    reduce dispatch c s = (Raise Discard, s1) ->
    reduced dispatch cs s1 vs s' ->
    reduced dispatch (c :: cs) s vs s'.

(** [visited visit cs s vs s']: going through [cs] in order from state [s]
    ends in [s'], [vs] holding each leaf as it is and, for each node, what
    [visit] returned on it. *)
Inductive visited (visit : value Meta -> M St (value Meta))
  : list (value Meta) -> St -> list (value Meta) -> St -> Prop :=
| visited_nil s : visited visit [] s [] s
| visited_leaf c cs s vs s' :
    isinstance_Tree c = false ->
    visited visit cs s vs s' ->
    visited visit (c :: cs) s (c :: vs) s'
| visited_node c cs s v s1 vs s' :
    isinstance_Tree c = true ->
    visit c s = (Ok v, s1) ->
    visited visit cs s1 vs s' ->
    visited visit (c :: cs) s (v :: vs) s'.

(** A reduction that ran to the end of its node: it returned, or its own
    dispatch raised [Discard]. *)
Definition completes {A} (r : result A) : Prop :=
  match r with
  | Ok _ => True
  | Raise e => e = Discard
  end.

(** A dispatcher that also writes down each call it makes: the tag, the
    children it is called with, the metadata. *)
Definition traced dispatch
  : string -> list (value Meta) -> Meta
    -> M (St * list (string * list (value Meta) * Meta)) (value Meta) :=
  fun data children meta σ =>
    let '(r, s) := dispatch data children meta σ.1 in
    (r, (s, σ.2 ++ [(data, children, meta)])).

(** The node a call was made for. *)
Definition node_of (call : string * list (value Meta) * Meta) : string * Meta :=
  (call.1.1, call.2).

(** [represents st c t fp]: the slot [c] of store [st] holds the tree (or
    leaf) [t]; [fp] lists the objects that make it up, children before their
    parent, left to right. *)
Inductive represents (st : Objects.store Meta)
  : Objects.child Meta -> value Meta -> list Objects.loc -> Prop :=
| represents_leaf v :
    isinstance_Tree v = false ->
    represents st (Objects.Val v) v []
| represents_node l children fps :
    Forall3 (represents st) (Objects.obj_children (st l)) children fps ->
    represents st (Objects.Ref l)
      (Tree (Objects.obj_data (st l)) children (Objects.obj_meta (st l)))
      (List.concat fps ++ [l]).

(** The object at [l] has the children of the call as its [children]. *)
Definition settled (st : Objects.store Meta) (l : Objects.loc)
    (call : string * list (value Meta) * Meta) : Prop :=
  st l = Objects.New_tree call.1.1 (map Objects.Val call.1.2) call.2.

(** The names of the members of the base classes of [cls]. *)
Definition inherited_names (cls : pyclass Meta St) : gset string :=
  ⋃ (map Inspect.dir (tail (Inspect.getmro cls))).
End notions.

(** What one in-place reduction of the slot [c] does, from any store [st1]
    that agrees with [st] on the objects [fp] of the slot, next to the copying
    reduction of the tree [t] the slot holds and to the calls that reduction
    makes: the same result and state, no object touched but those of [fp],
    and each of these settled with the children of its call. *)
Definition in_place_spec {Meta St : Type} (self : holder Meta St) (st : Objects.store Meta)
    (depth : nat) (c : Objects.child Meta) (t : value Meta)
    (fp : list Objects.loc) : Prop :=
  forall (st1 : Objects.store Meta) s log,
    (forall l, l ∈ fp -> st1 l = st l) -> NoDup fp ->
    exists (st2 : Objects.store Meta) calls,
      reduce (traced (Transformer._call_userfunc self)) t (s, log)
      = ((reduce (Transformer._call_userfunc self) t s).1,
         ((reduce (Transformer._call_userfunc self) t s).2, log ++ calls))
      /\ Transformer_InPlaceRecursive.reduce self depth c (st1, s)
         = ((reduce (Transformer._call_userfunc self) t s).1,
            (st2, (reduce (Transformer._call_userfunc self) t s).2))
      /\ (forall l, l ∉ fp -> st2 l = st1 l)
      /\ (completes (reduce (Transformer._call_userfunc self) t s).1 ->
          Forall2 (settled st2) fp calls).

(** ** The other strategies and decorators *)

Module InlineTransformer.
Section methods.
Context {Meta St : Type}.
Implicit Types (self : holder Meta St) (children : list (value Meta)).

Definition _call_userfunc self (data : string) children (meta : Meta)
  : M St (value Meta) :=
  match self !! data with
  | None => Transformer.call___default__ self data children meta
  | Some f => call f children
  end.

Definition _transform_children self children : M St (list (value Meta)) :=
  Traversal._transform_children (_call_userfunc self) children.

Definition _transform_tree self (tree : value Meta) : M St (value Meta) :=
  Traversal._transform_tree (_call_userfunc self) tree.

Definition transform self (tree : value Meta) : M St (value Meta) :=
  _transform_tree self tree.
End methods.
End InlineTransformer.

(** [Transformer_InPlace] on tree objects.  [_transform_tree] does not
    recurse: it dispatches on the object with the children the object has at
    that moment.  The objects [tree.iter_subtrees()] yields are a parameter
    of [transform], [iter_subtrees] belonging to lark.tree. *)
Module Transformer_InPlace.
Import Objects.
Section methods.
Context {Meta St : Type}.
Variable self : holder Meta St.

(** The value a handler is given for a slot of [tree.children]: a value is
    itself, a tree object is seen with its fields, its own children seen the
    same way; an object deeper than [depth] is not looked into. *)
Fixpoint view (depth : nat) (st : store Meta) (c : child Meta) : value Meta :=
  match c with
  | Val v => v
  | Ref l =>
      match depth with
      | 0 => PyObject "Tree"
      | S depth =>
          Tree (obj_data (st l)) (map (view depth st) (obj_children (st l)))
               (obj_meta (st l))
      end
  end.

Definition _transform_tree (depth : nat) (tree : loc) : M (store Meta * St) (value Meta) :=
  let! o := get_object tree in
  fun σ =>
    lift (Transformer._call_userfunc self (obj_data o)
            (map (view depth σ.1) (obj_children o)) (obj_meta o)) σ.

(** What the generator of [_transform_children] yields for one child. *)
Definition reduce (depth : nat) (c : child Meta) : M (store Meta * St) (value Meta) :=
  match c with
  | Ref l => _transform_tree depth l
  | Val (Tree data children meta) =>
      lift (Transformer._call_userfunc self data children meta)
  | Val v => ret v
  end.

Fixpoint _transform_children (depth : nat) (children : list (child Meta))
  : M (store Meta * St) (list (value Meta)) :=
  match children with
  | [] => ret []
  | c :: rest => fun σ =>
      match reduce depth c σ with
      | (Ok v, σ') => (let! vs := _transform_children depth rest in ret (v :: vs)) σ'
      | (Raise Discard, σ') => _transform_children depth rest σ'
      | (Raise e, σ') => (Raise e, σ')
      end
  end.

(** The [for] loop of [transform]. *)
Fixpoint transform_loop (depth : nat) (subtrees : list loc) : M (store Meta * St) unit :=
  match subtrees with
  | [] => ret tt
  | subtree :: rest =>
      let! o := get_object subtree in
      let! children := _transform_children depth (obj_children o) in
      let! _ := assign_children subtree (map Val children) in
      transform_loop depth rest
  end.

Definition transform (depth : nat) (iter_subtrees : list loc) (tree : loc)
  : M (store Meta * St) (value Meta) :=
  let! _ := transform_loop depth iter_subtrees in
  _transform_tree depth tree.
End methods.
End Transformer_InPlace.

(** Visitors: a handler is called on the node itself, [f(tree)]. *)
Module VisitorBase.
Section methods.
Context {Meta St : Type}.
Implicit Types (self : holder Meta St).

(** The library's [__default__]: [return tree]. *)
Definition __default__ : callable Meta St :=
  Function (fun args =>
    match args with
    | [tree] => ret tree
    | _ => raise TypeError
    end).

(** [getattr(self, tree.data, self.__default__)(tree)]: the arguments of
    [getattr] are evaluated first, [tree.data] before [self.__default__]. *)
Definition _call_userfunc self (tree : value Meta) : M St (value Meta) :=
  match tree with
  | Tree data _ _ =>
      match self !! "__default__" with
      | Some d => call (default d (self !! data)) [tree]
      | None => raise AttributeError
      end
  | _ => raise AttributeError
  end.
End methods.
End VisitorBase.

Module Visitor.
Section methods.
Context {Meta St : Type}.
Implicit Types (self : holder Meta St).

(** [tree.iter_subtrees()] belongs to lark.tree: the enumeration is a
    parameter. *)
Variable iter_subtrees : value Meta -> list (value Meta).

(** The [for] loop of [visit]. *)
Fixpoint visit_loop self (subtrees : list (value Meta)) : M St unit :=
  match subtrees with
  | [] => ret tt
  | subtree :: rest =>
      let! _ := VisitorBase._call_userfunc self subtree in
      visit_loop self rest
  end.

Definition visit self (tree : value Meta) : M St (value Meta) :=
  match tree with
  | Tree _ _ _ =>
      let! _ := visit_loop self (iter_subtrees tree) in
      ret tree
  | _ => raise AttributeError
  end.
End methods.
End Visitor.

Module Visitor_Recursive.
Section methods.
Context {Meta St : Type}.
Implicit Types (self : holder Meta St).

Fixpoint visit self (tree : value Meta) : M St (value Meta) :=
  match tree with
  | Tree data children meta =>
      let! _ :=
        (fix loop (children : list (value Meta)) : M St unit :=
           match children with
           | [] => ret tt
           | child :: rest =>
               let! _ := (if isinstance_Tree child then visit self child
                          else ret child) in
               loop rest
           end) children in
      match self !! "__default__" with
      | Some d =>
          let! _ := call (default d (self !! data)) [tree] in
          ret tree
      | None => raise AttributeError
      end
  | _ => raise AttributeError
  end.

(** The [for] loop of [visit] over the children. *)
Definition visit_children_loop self
  : list (value Meta) -> M St unit :=
  fix loop (children : list (value Meta)) : M St unit :=
    match children with
    | [] => ret tt
    | child :: rest =>
        let! _ := (if isinstance_Tree child then visit self child
                   else ret child) in
        loop rest
    end.
End methods.
End Visitor_Recursive.

Section more_decorators.
Context {Meta St : Type}.

(** [inner] of [visit_children_decor]: the children are visited, then
    [func] is called on the list of results. *)
Definition visit_children_decor (func : Interpreter.method Meta St)
  : Interpreter.method Meta St :=
  fun cls tree =>
    let! values := cls "visit_children" tree in
    func cls values.

(** [*children] in a call: the items of a list, the characters of a string;
    a [Tree], a number and a metadata record are not iterable, and an opaque
    object is taken not to be. *)
Definition star (children : value Meta) : result (list (value Meta)) :=
  match children with
  | PyList items => Ok items
  | PyStr s => Ok (map (fun c => PyStr (String c EmptyString)) (String.list_ascii_of_string s))
  | _ => Raise TypeError
  end.

(** [_inline_args__func]: the function [create_decorator] builds takes the
    children as one argument and calls [func] on them one by one;
    [smart_decorator] copies the attributes of [func] onto it. *)
Definition _inline_args__func (func : callable Meta St) : callable Meta St :=
  let f := Function (fun args =>
    match args with
    | [children] =>
        match star children with
        | Ok items => call func items
        | Raise e => raise e
        end
    | _ => raise TypeError
    end) in
  Wrapper (getattr_inline func) (getattr_meta func) f.

Definition inline_args (obj : decoratable Meta St) : result (decoratable Meta St) :=
  _apply_decorator obj (fun f => Ok (_inline_args__func f)).
End more_decorators.

Section more_notions.
Context {Meta St : Type}.

(** The attributes of an instance of [cls]: for each name the first
    definition along the MRO, as [Inspect.getattr] finds it. *)
Definition attributes_of (cls : pyclass Meta St) : holder Meta St :=
  foldr (fun c inherited => Inspect.class_dict c ∪ inherited) ∅ (Inspect.getmro cls).

(** Modelled from the spec: [Tree.iter_subtrees] of lark.tree, which
    enumerates the sub-nodes reachable from the root, deepest first; here the
    sub-nodes of the children from left to right, then the node itself. *)
Fixpoint subtrees (tree : value Meta) : list (value Meta) :=
  match tree with
  | Tree _ children _ => flat_map subtrees children ++ [tree]
  | _ => []
  end.

(** The slot [c], which holds the tree [t], is ready to be dispatched on:
    if it is an object, its children are the reduced children of [t]. *)
Definition ready (self : holder Meta St) (st : Objects.store Meta) (s : St)
    (c : Objects.child Meta) (t : value Meta) : Prop :=
  match c with
  | Objects.Val _ => True
  | Objects.Ref l =>
      exists data children meta vs,
        t = Tree data children meta
        /\ (Transformer._transform_children self children s).1 = Ok vs
        /\ st l = Objects.New_tree data (map Objects.Val vs) meta
  end.

(** The children of [t], if it is a node, reduce to a list from state [s]. *)
Definition children_reduce (self : holder Meta St) (s : St) (t : value Meta) : Prop :=
  match t with
  | Tree _ children _ =>
      exists vs, (Transformer._transform_children self children s).1 = Ok vs
  | _ => True
  end.

(** What the loop of [Transformer_InPlace.transform] does over the objects
    [fp] of the slot [c], from any store [st1] that agrees with [st] on them:
    it returns, touches no other object, and leaves the slot ready. *)
Definition sweep_spec (self : holder Meta St) (st : Objects.store Meta)
    (depth : nat) (s : St) (c : Objects.child Meta) (t : value Meta)
    (fp : list Objects.loc) : Prop :=
  forall st1 : Objects.store Meta,
    (forall l, l ∈ fp -> st1 l = st l) -> NoDup fp ->
    children_reduce self s t ->
    exists st2 : Objects.store Meta,
      Transformer_InPlace.transform_loop self depth fp (st1, s) = (Ok tt, (st2, s))
      /\ (forall l, l ∉ fp -> st2 l = st1 l)
      /\ ready self st2 s c t.
End more_notions.
(** ** Holders and trees the properties are tried on *)

Module Examples.
(** A handler that writes its name in the log and returns [v]. *)
Definition logging (name : string) (v : value nat) : callable nat (list string) :=
  Function (fun _ s => (Ok v, s ++ [name])).

(** A handler that writes its name in the log and raises [Discard]. *)
Definition discarding (name : string) : callable nat (list string) :=
  Function (fun _ s => (Raise Discard, s ++ [name])).

(** A handler that returns the list of children it is called with. *)
Definition echo : callable nat (list string) :=
  Function (fun args =>
    match args with
    | [PyList children] => ret (PyList children)
    | _ => raise TypeError
    end).

(** [class T(Transformer): pass] *)
Definition plain : holder nat (list string) := Transformer.instance ∅ 1.

(** [A] echoes its children, [B] returns a string, [C] discards. *)
Definition pruning : holder nat (list string) :=
  Transformer.instance
    (list_to_map [("A", echo); ("B", logging "B" (PyStr "b")); ("C", discarding "C")]) 1.

Definition abcb : value nat :=
  Tree "A" [Tree "B" [] 1; Tree "C" [PyStr "x"] 2; Tree "B" [] 3] 0.

Definition small : value nat :=
  Tree "start" [Tree "item" [PyStr "x"] 1; PyStr "," ; Tree "item" [PyStr "y"] 2] 0.
(** [leaf] returns a new tree tagged [seen], a tag that has a handler too. *)
Definition regrowing : holder nat (list string) :=
  Transformer.instance
    (list_to_map [("leaf", logging "leaf" (Tree "seen" [] 9));
                  ("seen", logging "seen" (PyStr "!"))]) 1.

Definition sprout : value nat := Tree "root" [Tree "leaf" [] 1; PyStr "x"] 0.

(** A handler that takes the children and the metadata. *)
Definition with_meta : callable nat (list string) :=
  Function (fun args =>
    match args with
    | [PyList children; PyMeta meta] => ret (Tree "seen" children meta)
    | _ => raise TypeError
    end).

(** A handler of two positional arguments. *)
Definition swap : callable nat (list string) :=
  Function (fun args =>
    match args with
    | [x; y] => ret (PyList [y; x])
    | _ => raise TypeError
    end).

(** One handler of each shape. *)
Definition shapes : holder nat (list string) :=
  Transformer.instance
    (list_to_map [("m", Wrapper false true with_meta);
                  ("i", Wrapper true false swap);
                  ("p", echo)]) 1.

(** Two stages: the first renames nothing, the second counts children. *)
Definition counting : holder nat (list string) :=
  Transformer.instance
    (list_to_map [("start", Function (fun args =>
       match args with
       | [PyList children] => ret (PyInt (Z.of_nat (length children)))
       | _ => raise TypeError
       end))]) 1.
(** Class objects.  A method is told from another by the string it
    returns. *)
Definition method (name : string) : callable nat unit :=
  Function (fun _ => ret (PyStr name)).

(** [class Transformer] *)
Definition Transformer_class : pyclass nat unit :=
  Class (list_to_map (map (fun name => (name, method name)) Transformer.class_names)) [].

(** [@visitor_args(inline=True) class Base(Transformer)], which defines
    [expr] and [term]: both are wrapped already. *)
Definition Base : pyclass nat unit :=
  Class (list_to_map [("expr", Wrapper true false (method "Base.expr"));
                      ("term", Wrapper true false (method "Base.term"))])
        [Transformer_class].

(** [class Sub(Base)], which overrides [expr] and adds [atom] and
    [_helper]. *)
Definition Sub : pyclass nat unit :=
  Class (list_to_map [("expr", method "Sub.expr");
                      ("atom", method "Sub.atom");
                      ("_helper", method "Sub._helper")])
        [Base; Transformer_class].

(** The decorator [visitor_args(inline=True)] applies to each member. *)
Definition inline_dec (f : callable nat unit) : result (callable nat unit) :=
  _visitor_args_func_dec f true false.
(** Interpreter methods.  [noting name] writes its name in the log. *)
Definition noting (name : string) : Interpreter.method nat (list string) :=
  fun self tree s => (Ok (PyStr name), s ++ [name]).

(** [vals = self.visit_children(tree); return vals[0]] *)
Definition first_of_children : Interpreter.method nat (list string) :=
  fun self tree =>
    let! vals := self "visit_children" tree in
    match vals with
    | PyList (v :: _) => ret v
    | _ => raise (Error "IndexError")
    end.

(** [return self.visit(tree.children[0])] *)
Definition first_child_only {Meta St : Type} : Interpreter.method Meta St :=
  fun self tree =>
    match tree with
    | Tree _ (c :: _) _ => self "visit" c
    | Tree _ [] _ => raise (Error "IndexError")
    | _ => raise AttributeError
    end.

(** [class I(Interpreter): pass] *)
Definition bare : gmap string (Interpreter.method nat (list string)) := ∅.

Definition xyz : value nat := Tree "X" [Tree "Y" [] 1; Tree "Z" [] 2] 0.

Definition eager : gmap string (Interpreter.method nat (list string)) :=
  list_to_map [("X", first_of_children); ("Y", noting "Y"); ("Z", noting "Z")].

Definition lazy : gmap string (Interpreter.method nat (list string)) :=
  list_to_map [("X", first_child_only); ("Y", noting "Y"); ("Z", noting "Z")].
(** The tree [small] as three objects: the root at 0, its two [item] nodes
    at 1 and 2. *)
Definition small_objects : Objects.store nat :=
  fun l =>
    match l with
    | 0 => Objects.New_tree "start"
             [Objects.Ref 1; Objects.Val (PyStr ","); Objects.Ref 2] 0
    | 1 => Objects.New_tree "item" [Objects.Val (PyStr "x")] 1
    | 2 => Objects.New_tree "item" [Objects.Val (PyStr "y")] 2
    | _ => Objects.New_tree "" [] 0
    end.
End Examples.


(** ** More holders and trees *)

Module MoreExamples.
(** A handler of two positional arguments that writes in the log. *)
Definition pair : callable nat (list string) :=
  Function (fun args s =>
    match args with
    | [x; y] => (Ok (PyList [y; x]), s ++ ["pair"])
    | _ => (Raise TypeError, s)
    end).

(** A handler that fails. *)
Definition failing (name : string) : callable nat (list string) :=
  Function (fun _ s => (Raise ValueError, s ++ [name])).


(** A stage that returns a number for [start]. *)
Definition stage_count : transformer nat (list string) := Instance Examples.counting.
Definition stage_plain : transformer nat (list string) := Instance Examples.plain.
(** An interpreter method that adds up the numbers it is given. *)
Definition total : Interpreter.method nat (list string) :=
  fun self values s =>
    match values with
    | PyList vs =>
        (Ok (PyInt (foldr (fun v n => match v with PyInt z => (z + n)%Z | _ => n end)
                          0%Z vs)), s ++ ["total"])
    | _ => (Raise TypeError, s)
    end.

(** [sum] is decorated with [visit_children_decor]; [one] returns 1. *)
Definition summing : gmap string (Interpreter.method nat (list string)) :=
  list_to_map [("sum", visit_children_decor total);
               ("one", fun self tree s => (Ok (PyInt 1), s ++ ["one"]))].

Definition ones : value nat := Tree "sum" [Tree "one" [] 1; PyInt 5; Tree "one" [] 2] 0.

(** An interpreter method that raises [Discard]. *)
Definition dropping : gmap string (Interpreter.method nat (list string)) :=
  list_to_map [("one", fun self tree s => (Ok (PyInt 1), s ++ ["one"]));
               ("drop", fun self tree s => (Raise Discard, s ++ ["drop"]))].


(** A holder without state: [start] counts its children. *)
Definition quiet : holder nat unit :=
  Transformer.instance
    (list_to_map [("start", Function (fun args =>
       match args with
       | [PyList children] => ret (PyInt (Z.of_nat (length children)))
       | _ => raise TypeError
       end))]) 1.

(** What [quiet] dispatches to, as a function. *)
Definition quiet_dispatch (data : string) (children : list (value nat)) (meta : nat)
  : result (value nat) :=
  (Transformer._call_userfunc quiet data children meta tt).1.

(** The tree A[B[D], C[E]] as five objects. *)
Definition abcde : value nat :=
  Tree "A" [Tree "B" [Tree "D" [] 3] 1; Tree "C" [Tree "E" [] 4] 2] 0.

Definition abcde_objects : Objects.store nat :=
  fun l =>
    match l with
    | 0 => Objects.New_tree "A" [Objects.Ref 1; Objects.Ref 2] 0
    | 1 => Objects.New_tree "B" [Objects.Ref 3] 1
    | 2 => Objects.New_tree "C" [Objects.Ref 4] 2
    | 3 => Objects.New_tree "D" [] 3
    | 4 => Objects.New_tree "E" [] 4
    | _ => Objects.New_tree "" [] 0
    end.

(** Every tag writes itself in the log. *)
Definition noting_all : holder nat (list string) :=
  Transformer.instance
    (list_to_map [("A", Examples.logging "A" (PyStr "a"));
                  ("B", Examples.logging "B" (PyStr "b"));
                  ("C", Examples.logging "C" (PyStr "c"));
                  ("D", Examples.logging "D" (PyStr "d"));
                  ("E", Examples.logging "E" (PyStr "e"))]) 1.
End MoreExamples.
(** ** The dispatcher and the copying transform *)

Section traversal_facts.
Context {Meta St : Type}.
Implicit Types (dispatch : string -> list (value Meta) -> Meta -> M St (value Meta)).

Lemma _transform_tree_unfold dispatch data children meta :
  Traversal._transform_tree dispatch (Tree data children meta)
  = (let! children := Traversal._transform_children dispatch children in
     dispatch data children meta).
Proof. reflexivity. Qed.

Lemma _transform_children_cons dispatch c rest s :
  Traversal._transform_children dispatch (c :: rest) s
  = match reduce dispatch c s with
    | (Ok v, s') =>
        (let! vs := Traversal._transform_children dispatch rest in ret (v :: vs)) s'
    | (Raise Discard, s') => Traversal._transform_children dispatch rest s'
    | (Raise e, s') => (Raise e, s')
    end.
Proof. reflexivity. Qed.

Lemma reduced_sound dispatch cs s vs s' :
  reduced dispatch cs s vs s' ->
  Traversal._transform_children dispatch cs s = (Ok vs, s').
Proof.
  induction 1 as [s|c cs s v s1 vs s' Hc _ IH|c cs s s1 vs s' Hc _ IH];
    [reflexivity| |]; rewrite _transform_children_cons, Hc.
  - unfold bind. now rewrite IH.
  - exact IH.
Qed.

Lemma reduced_complete dispatch cs : forall s vs s',
  Traversal._transform_children dispatch cs s = (Ok vs, s') ->
  reduced dispatch cs s vs s'.
Proof.
  induction cs as [|c cs IH]; intros s vs s' H.
  - inversion H; subst. constructor.
  - rewrite _transform_children_cons in H.
    destruct (reduce dispatch c s) as [[v|e] s1] eqn:Hc.
    + unfold bind in H.
      destruct (Traversal._transform_children dispatch cs s1) as [[vs1|e1] s2] eqn:Hr;
        [|discriminate].
      inversion H; subst. eapply reduced_keep; eauto.
    + destruct e; try discriminate. eapply reduced_drop; eauto.
Qed.
End traversal_facts.

(** C1. The dispatcher [_call_userfunc]: with no attribute named [data] on
    the holder it returns what the holder's [__default__] returns on
    (data, children, meta); with an attribute [f] whose [meta] flag is set it
    returns [f(children, meta)]; with [inline] set (and [meta] not) it returns
    [f( *children )], each child a positional argument; otherwise it returns
    [f(children)], the children as one list. *)
Theorem call_userfunc_contract {Meta St : Type} (self : holder Meta St)
    (data : string) (children : list (value Meta)) (meta : Meta) :
  (self !! data = None ->
     forall d, self !! "__default__" = Some d ->
     Transformer._call_userfunc self data children meta
     = call d [PyStr data; PyList children; PyMeta meta])
  /\ (forall f, self !! data = Some f -> getattr_meta f = true ->
        Transformer._call_userfunc self data children meta
        = call f [PyList children; PyMeta meta])
  /\ (forall f, self !! data = Some f ->
        getattr_meta f = false -> getattr_inline f = true ->
        Transformer._call_userfunc self data children meta = call f children)
  /\ (forall f, self !! data = Some f ->
        getattr_meta f = false -> getattr_inline f = false ->
        Transformer._call_userfunc self data children meta = call f [PyList children]).
Proof.
  unfold Transformer._call_userfunc, Transformer.call___default__.
  repeat split.
  - intros Hno d Hd. now rewrite Hno, Hd.
  - intros f Hf Hm. now rewrite Hf, Hm.
  - intros f Hf Hm Hi. now rewrite Hf, Hm, Hi.
  - intros f Hf Hm Hi. now rewrite Hf, Hm, Hi.
Qed.

Lemma call_userfunc_contract_witness :
  (Examples.shapes !! "q" = None
   /\ Examples.shapes !! "__default__" = Some Transformer.__default__
   /\ Transformer._call_userfunc Examples.shapes "q" [PyStr "x"] 7
      = call Transformer.__default__ [PyStr "q"; PyList [PyStr "x"]; PyMeta 7])
  /\ (Examples.shapes !! "m" = Some (Wrapper false true Examples.with_meta)
      /\ Transformer._call_userfunc Examples.shapes "m" [PyStr "x"] 7
         = call (Wrapper false true Examples.with_meta) [PyList [PyStr "x"]; PyMeta 7])
  /\ (Examples.shapes !! "i" = Some (Wrapper true false Examples.swap)
      /\ Transformer._call_userfunc Examples.shapes "i" [PyStr "x"; PyStr "y"] 7
         = call (Wrapper true false Examples.swap) [PyStr "x"; PyStr "y"])
  /\ (Examples.shapes !! "p" = Some Examples.echo
      /\ Transformer._call_userfunc Examples.shapes "p" [PyStr "x"] 7
         = call Examples.echo [PyList [PyStr "x"]]).
Proof.
  split; [|split; [|split]].
  - split; [reflexivity|]. split; [reflexivity|].
    exact (proj1 (call_userfunc_contract Examples.shapes "q" [PyStr "x"] 7)
             eq_refl _ eq_refl).
  - split; [reflexivity|].
    exact (proj1 (proj2 (call_userfunc_contract Examples.shapes "m" [PyStr "x"] 7))
             _ eq_refl eq_refl).
  - split; [reflexivity|].
    exact (proj1 (proj2 (proj2
             (call_userfunc_contract Examples.shapes "i" [PyStr "x"; PyStr "y"] 7)))
             _ eq_refl eq_refl eq_refl).
  - split; [reflexivity|].
    exact (proj2 (proj2 (proj2
             (call_userfunc_contract Examples.shapes "p" [PyStr "x"] 7)))
             _ eq_refl eq_refl eq_refl).
Defined.

Section copy_transform_facts.
Context {Meta St : Type}.
Implicit Types (self : holder Meta St).

Lemma reduce_identity self :
  self !! "__default__" = Some Transformer.__default__ ->
  forall (t : value Meta) s,
    Forall (fun tag => self !! tag = None) (tags t) ->
    reduce (Transformer._call_userfunc self) t s = (Ok t, s).
Proof.
  intros Hdef t.
  induction t as [data children IH meta|str|z|items _|m|repr] using value_ind;
    intros s Htags; try reflexivity.
  unfold reduce. cbn [isinstance_Tree].
  rewrite _transform_tree_unfold.
  simpl in Htags. apply Forall_cons in Htags as [Hdata Htags].
  assert (Hcs : forall s, Traversal._transform_children
                  (Transformer._call_userfunc self) children s = (Ok children, s)).
  { clear Hdata. induction IH as [|c Hc cs _ IHcs]; intros s0; [reflexivity|].
    simpl in Htags. apply Forall_app in Htags as [Htc Htcs].
    rewrite _transform_children_cons, (Hc s0 Htc).
    unfold bind. now rewrite (IHcs Htcs). }
  unfold bind. rewrite Hcs.
  unfold Transformer._call_userfunc, Transformer.call___default__.
  now rewrite Hdata, Hdef.
Qed.
End copy_transform_facts.

(** C2, as the code has it.  A holder that keeps the library's
    [__default__] and has no attribute named as a tag of the tree returns a
    tree equal to its input: same tags, children in the same order, same
    metadata, leaves as they are.  The attributes include the methods of
    [Transformer] itself. *)
Theorem default_transform_identity {Meta St : Type} (self : holder Meta St)
    (t : value Meta) (s : St) :
  self !! "__default__" = Some Transformer.__default__ ->
  Forall (fun tag => self !! tag = None) (tags t) ->
  isinstance_Tree t = true ->
  Transformer.transform self t s = (Ok t, s).
Proof.
  intros Hdef Htags Ht.
  pose proof (reduce_identity self Hdef t s Htags) as H.
  unfold reduce in H. now rewrite Ht in H.
Qed.

Lemma default_transform_identity_witness :
  Examples.plain !! "__default__" = Some Transformer.__default__
  /\ Forall (fun tag => Examples.plain !! tag = None) (tags Examples.small)
  /\ isinstance_Tree Examples.small = true
  /\ Transformer.transform Examples.plain Examples.small [] = (Ok Examples.small, []).
Proof.
  assert (H1 : Examples.plain !! "__default__" = Some Transformer.__default__)
    by reflexivity.
  assert (H2 : Forall (fun tag => Examples.plain !! tag = None) (tags Examples.small))
    by (repeat constructor).
  split; [exact H1|]. split; [exact H2|]. split; [reflexivity|].
  exact (default_transform_identity Examples.plain Examples.small [] H1 H2 eq_refl).
Defined.

(** C2 fails as stated: a node tagged [transform] finds the method
    [Transformer.transform] on a holder without any handler, which is then
    called on the list of children. *)
Lemma default_transform_identity_counterexample :
  Transformer.transform Examples.plain (Tree "transform" [] 0) []
  = (Raise AttributeError, [])
  /\ Transformer.transform Examples.plain (Tree "transform" [] 0) []
     <> (Ok (Tree "transform" [] 0), []).
Proof. split; [reflexivity|discriminate]. Qed.

(** C3. The children whose reduction raises [Discard] are left out of the
    list the parent's handler is called with, the others keep their order;
    a [Discard] raised by the dispatch on the root comes out of [transform]. *)
Theorem discard_semantics {Meta St : Type} (self : holder Meta St)
    (data : string) (children : list (value Meta)) (meta : Meta)
    (s : St) (vs : list (value Meta)) (s' : St) :
  (Transformer._transform_children self children s = (Ok vs, s')
   <-> reduced (Transformer._call_userfunc self) children s vs s')
  /\ (reduced (Transformer._call_userfunc self) children s vs s' ->
      Transformer.transform self (Tree data children meta) s
      = Transformer._call_userfunc self data vs meta s'
      /\ (forall s'',
            Transformer._call_userfunc self data vs meta s' = (Raise Discard, s'') ->
            Transformer.transform self (Tree data children meta) s
            = (Raise Discard, s''))).
Proof.
  split; [split; [apply reduced_complete|apply reduced_sound]|].
  intros Hred. apply reduced_sound in Hred.
  assert (Ht : Transformer.transform self (Tree data children meta) s
               = Transformer._call_userfunc self data vs meta s').
  { unfold Transformer.transform, Transformer._transform_tree.
    rewrite _transform_tree_unfold. unfold bind. now rewrite Hred. }
  split; [exact Ht|]. intros s'' Hd. now rewrite Ht.
Qed.

Lemma discard_semantics_witness :
  reduced (Transformer._call_userfunc Examples.pruning)
    [Tree "B" [] 1; Tree "C" [PyStr "x"] 2; Tree "B" [] 3] []
    [PyStr "b"; PyStr "b"] ["B"; "C"; "B"]
  /\ Transformer.transform Examples.pruning Examples.abcb []
     = (Ok (PyList [PyStr "b"; PyStr "b"]), ["B"; "C"; "B"]).
Proof.
  assert (H : reduced (Transformer._call_userfunc Examples.pruning)
                [Tree "B" [] 1; Tree "C" [PyStr "x"] 2; Tree "B" [] 3] []
                [PyStr "b"; PyStr "b"] ["B"; "C"; "B"]).
  { eapply reduced_keep; [reflexivity|].
    eapply reduced_drop; [reflexivity|].
    eapply reduced_keep; [reflexivity|]. apply reduced_nil. }
  split; [exact H|].
  exact (proj1 (proj2 (discard_semantics Examples.pruning "A" _ 0 _ _ _) H)).
Defined.

(** ** Chains *)

Section chain_facts.
Context {Meta St : Type}.
Implicit Types (ts : list (transformer Meta St)) (m : M St (value Meta)).

Lemma bind_assoc_at {A B C} (m : M St A) (f : A -> M St B) (g : B -> M St C) s :
  (let! y := (let! x := m in f x) in g y) s = (let! x := m in let! y := f x in g y) s.
Proof. unfold bind. now destruct (m s) as [[a|e] s1]. Qed.

Lemma bind_ret_at {A} (m : M St A) s : (let! x := m in ret x) s = m s.
Proof. unfold bind, ret. now destruct (m s) as [[a|e] s1]. Qed.

Lemma bind_ext_at {A B} (m : M St A) (f g : A -> M St B) s :
  (forall a s1, f a s1 = g a s1) ->
  (let! x := m in f x) s = (let! x := m in g x) s.
Proof. intros H. unfold bind. destruct (m s) as [[a|e] s1]; [apply H|reflexivity]. Qed.

Lemma chain_transform_cons (t : transformer Meta St) ts tree :
  TransformerChain.transform (Chain (t :: ts)) tree
  = (let! tree := TransformerChain.transform t tree in
     TransformerChain.transform (Chain ts) tree).
Proof. reflexivity. Qed.

Lemma chain_transform_foldl ts : forall m s,
  (let! x := m in TransformerChain.transform (Chain ts) x) s
  = foldl (fun m t => let! x := m in TransformerChain.transform t x) m ts s.
Proof.
  induction ts as [|t ts IH]; intros m s.
  - apply bind_ret_at.
  - cbn [foldl]. rewrite <- IH, bind_assoc_at.
    apply bind_ext_at. intros a s1. now rewrite chain_transform_cons.
Qed.

Lemma chain_transform_app ts (other : transformer Meta St) : forall tree s,
  TransformerChain.transform (Chain (ts ++ [other])) tree s
  = (let! x := TransformerChain.transform (Chain ts) tree in
     TransformerChain.transform other x) s.
Proof.
  induction ts as [|t ts IH]; intros tree s.
  - cbn [app]. rewrite chain_transform_cons. unfold bind. cbn.
    now destruct (TransformerChain.transform other tree s) as [[a|e] s1].
  - cbn [app]. rewrite !chain_transform_cons, bind_assoc_at.
    apply bind_ext_at. intros a s1. apply IH.
Qed.
End chain_facts.

(** C4. A chain of two stages gives [t2.transform(t1.transform(tree))]; a
    chain runs its stages from left to right, each on the result of the one
    before; [*] puts the other strategy at the end of the sequence. *)
Theorem chain_composition {Meta St : Type} (self : holder Meta St)
    (t1 t2 other : transformer Meta St) (ts : list (transformer Meta St))
    (tree : value Meta) (s : St) :
  TransformerChain.transform (Chain [t1; t2]) tree s
  = (let! x := TransformerChain.transform t1 tree in TransformerChain.transform t2 x) s
  /\ TransformerChain.transform (Chain ts) tree s
     = foldl (fun m t => let! x := m in TransformerChain.transform t x) (ret tree) ts s
  /\ TransformerChain.__mul__ (Instance self) other = Chain [Instance self; other]
  /\ TransformerChain.__mul__ (Chain ts) other = Chain (ts ++ [other])
  /\ TransformerChain.transform (TransformerChain.__mul__ (Chain ts) other) tree s
     = (let! x := TransformerChain.transform (Chain ts) tree in
        TransformerChain.transform other x) s.
Proof.
  split; [|split; [|split; [|split]]].
  - rewrite chain_transform_cons. apply bind_ext_at. intros a s1.
    rewrite chain_transform_cons. apply bind_ret_at.
  - now rewrite <- chain_transform_foldl.
  - reflexivity.
  - reflexivity.
  - apply chain_transform_app.
Qed.

(** ** Which nodes are dispatched *)

Section dispatch_trace.
Context {Meta St : Type}.
Variable dispatch : string -> list (value Meta) -> Meta -> M St (value Meta).

Lemma _transform_children_never_Discard (cs : list (value Meta)) : forall s e s',
  Traversal._transform_children dispatch cs s = (Raise e, s') -> e <> Discard.
Proof.
  induction cs as [|c cs IH]; intros s e s' H; [discriminate|].
  rewrite _transform_children_cons in H.
  destruct (reduce dispatch c s) as [[v|e1] s1].
  - unfold bind in H.
    destruct (Traversal._transform_children dispatch cs s1) as [[vs|e2] s2] eqn:Hr;
      [discriminate|].
    inversion H; subst. eapply IH, Hr.
  - destruct e1; try (inversion H; subst; discriminate). eapply IH, H.
Qed.

Lemma traced_children (cs : list (value Meta)) :
  (forall c, c ∈ cs -> forall s log r s', reduce dispatch c s = (r, s') ->
     exists calls,
       reduce (traced dispatch) c (s, log) = (r, (s', log ++ calls))
       /\ map node_of calls `prefix_of` postorder c
       /\ (completes r -> map node_of calls = postorder c)) ->
  forall s log r s', Traversal._transform_children dispatch cs s = (r, s') ->
    exists calls,
      Traversal._transform_children (traced dispatch) cs (s, log)
      = (r, (s', log ++ calls))
      /\ map node_of calls `prefix_of` flat_map postorder cs
      /\ ((exists vs, r = Ok vs) -> map node_of calls = flat_map postorder cs).
Proof.
  induction cs as [|c cs IH]; intros Hcs s log r s' Hrun.
  - inversion Hrun; subst. exists []. rewrite app_nil_r. now repeat split.
  - rewrite _transform_children_cons in Hrun. rewrite _transform_children_cons.
    destruct (reduce dispatch c s) as [r1 s1] eqn:Hc.
    destruct (Hcs c ltac:(left) s log r1 s1 Hc) as (calls1 & Hc' & Hpre1 & Hfull1).
    rewrite Hc'.
    assert (Hrest : forall c', c' ∈ cs -> forall s log r s',
              reduce dispatch c' s = (r, s') ->
              exists calls,
                reduce (traced dispatch) c' (s, log) = (r, (s', log ++ calls))
                /\ map node_of calls `prefix_of` postorder c'
                /\ (completes r -> map node_of calls = postorder c')).
    { intros c' Hin. apply Hcs. now right. }
    cbn [flat_map].
    destruct r1 as [v|e].
    + unfold bind in Hrun |- *.
      destruct (Traversal._transform_children dispatch cs s1) as [r2 s2] eqn:Hr.
      destruct (IH Hrest s1 (log ++ calls1) r2 s2 Hr) as (calls2 & Hr' & Hpre2 & Hfull2).
      rewrite Hr'. exists (calls1 ++ calls2).
      rewrite app_assoc, map_app, (Hfull1 I).
      destruct r2 as [vs|e2]; inversion Hrun; subst;
        (split; [reflexivity|split; [now apply prefix_app|]]).
      * intros _. f_equal. apply Hfull2. eauto.
      * now intros [vs Hvs].
    + destruct (decide (e = Discard)) as [->|Hne].
      * destruct (IH Hrest s1 (log ++ calls1) r s' Hrun) as (calls2 & Hr' & Hpre2 & Hfull2).
        rewrite Hr'. exists (calls1 ++ calls2).
        rewrite app_assoc, map_app, (Hfull1 eq_refl).
        split; [reflexivity|split; [now apply prefix_app|]].
        intros Hok. f_equal. now apply Hfull2.
      * assert (r = Raise e /\ s' = s1) as [-> ->]
          by (destruct e; try congruence; now inversion Hrun).
        exists calls1.
        split; [now destruct e|split; [now apply prefix_app_r|]].
        now intros [vs Hvs].
Qed.

Lemma traced_reduce (t : value Meta) : forall s log r s',
  reduce dispatch t s = (r, s') ->
  exists calls,
    reduce (traced dispatch) t (s, log) = (r, (s', log ++ calls))
    /\ map node_of calls `prefix_of` postorder t
    /\ (completes r -> map node_of calls = postorder t).
Proof.
  induction t as [data children IH meta|str|z|items _|m|repr] using value_ind;
    intros s log r s' Hrun;
    try (inversion Hrun; subst; exists []; rewrite app_nil_r; now repeat split).
  unfold reduce in Hrun |- *. cbn [isinstance_Tree] in Hrun |- *.
  rewrite _transform_tree_unfold in Hrun. rewrite _transform_tree_unfold.
  unfold bind in Hrun |- *.
  destruct (Traversal._transform_children dispatch children s) as [rc sc] eqn:Hcs.
  destruct (traced_children children) with (s := s) (log := log) (r := rc) (s' := sc)
    as (calls & Hcs' & Hpre & Hfull); [|exact Hcs|].
  { clear -IH. induction IH as [|c Hc cs _ IHcs]; intros c' Hin.
    - now apply elem_of_nil in Hin.
    - apply elem_of_cons in Hin as [->|Hin]; [exact Hc|now apply IHcs]. }
  rewrite Hcs'. cbn [postorder]. destruct rc as [vs|e].
  - unfold traced. cbn [fst snd]. rewrite Hrun.
    exists (calls ++ [(data, vs, meta)]).
    rewrite app_assoc, map_app, Hfull by eauto. now repeat split.
  - inversion Hrun; subst. exists calls.
    split; [reflexivity|split; [now apply prefix_app_r|]].
    intros Hd. cbn in Hd. subst.
    now apply _transform_children_never_Discard in Hcs.
Qed.
End dispatch_trace.

(** C10. Run with a dispatcher that writes down each of its calls, the
    copying transform returns what it returns otherwise, and the nodes it
    calls the dispatcher for are a beginning of the post-order list of the
    nodes of the input tree, all of it when the transform returns.  So a
    dispatch is on a node of the input, each node is dispatched at most once,
    and what a child's handler returns, a tree or not, goes into the parent's
    list as it is. *)
Theorem transform_dispatches_input_nodes_once {Meta St : Type}
    (dispatch : string -> list (value Meta) -> Meta -> M St (value Meta))
    (tree : value Meta) (s : St) (log : list (string * list (value Meta) * Meta)) :
  (exists calls,
     Traversal.transform (traced dispatch) tree (s, log)
     = ((Traversal.transform dispatch tree s).1,
        ((Traversal.transform dispatch tree s).2, log ++ calls))
     /\ map node_of calls `prefix_of` postorder tree
     /\ ((exists v, (Traversal.transform dispatch tree s).1 = Ok v) ->
         map node_of calls = postorder tree))
  /\ (forall c rest v s1, isinstance_Tree c = true ->
        Traversal.transform dispatch c s = (Ok v, s1) ->
        Traversal._transform_children dispatch (c :: rest) s
        = (let! vs := Traversal._transform_children dispatch rest in ret (v :: vs)) s1).
Proof.
  split.
  - destruct tree as [data children meta|str|z|items|m|repr];
      try (exists []; rewrite app_nil_r; cbn;
           split; [reflexivity|split; [reflexivity|now intros [v Hv]]]).
    destruct (Traversal.transform dispatch (Tree data children meta) s) as [r s'] eqn:Hrun.
    destruct (traced_reduce dispatch (Tree data children meta) s log r s' Hrun)
      as (calls & Hrun' & Hpre & Hfull).
    exists calls. split; [exact Hrun'|split; [exact Hpre|]].
    intros [v Hv]. cbn in Hv. subst r. now apply Hfull.
  - intros c rest v s1 Hc Hrun. rewrite _transform_children_cons.
    unfold reduce. rewrite Hc. unfold Traversal.transform in Hrun. now rewrite Hrun.
Qed.

Lemma transform_dispatches_input_nodes_once_witness :
  (exists v, (Traversal.transform (Transformer._call_userfunc Examples.regrowing)
                Examples.sprout []).1 = Ok v)
  /\ exists calls,
       Traversal.transform (traced (Transformer._call_userfunc Examples.regrowing))
         Examples.sprout ([], [])
       = (Ok (Tree "root" [Tree "seen" [] 9; PyStr "x"] 0), (["leaf"], calls))
       /\ map node_of calls = [("leaf", 1); ("root", 0)].
Proof.
  assert (Hok : exists v, (Traversal.transform
                             (Transformer._call_userfunc Examples.regrowing)
                             Examples.sprout []).1 = Ok v)
    by (eexists; reflexivity).
  split; [exact Hok|].
  destruct (proj1 (transform_dispatches_input_nodes_once
                     (Transformer._call_userfunc Examples.regrowing)
                     Examples.sprout [] []))
    as (calls & Hrun & _ & Hfull).
  exists calls. split; [exact Hrun|exact (Hfull Hok)].
Defined.

(** ** Decorating a class *)

Section class_facts.
Context {Meta St : Type}.
Implicit Types (cls : pyclass Meta St) (mro : list (pyclass Meta St)).

Lemma getattr_is_Some_dir cls name :
  is_Some (Inspect.getattr cls name) <-> name ∈ Inspect.dir cls.
Proof.
  unfold Inspect.getattr, Inspect.dir.
  induction (Inspect.getmro cls) as [|c mro IH]; cbn.
  - split; [now intros [v Hv]|set_solver].
  - rewrite elem_of_union, elem_of_dom, <- IH.
    destruct (Inspect.class_dict c !! name) as [v|] eqn:Hc.
    + split; [now left|eauto].
    + split; [now right|]. intros [[v Hv]|H]; [discriminate|exact H].
Qed.

Lemma getattr_own cls name :
  name ∉ inherited_names cls ->
  Inspect.getattr cls name = Inspect.class_dict cls !! name.
Proof.
  destruct cls as [dict bases]. unfold inherited_names, Inspect.getattr. cbn.
  intros Hno. destruct (dict !! name) as [v|]; [reflexivity|].
  induction bases as [|b bases IH]; [reflexivity|]. cbn in Hno |- *.
  apply not_elem_of_union in Hno as [Hb Hbs].
  destruct (Inspect.class_dict b !! name) as [v|] eqn:Hv; [|now apply IH].
  exfalso. apply Hb. destruct b as [bd bb]. unfold Inspect.dir. cbn in Hv |- *.
  apply elem_of_union. left. apply elem_of_dom. eauto.
Qed.

Lemma getmembers_elem cls name v :
  (name, v) ∈ Inspect.getmembers cls <-> Inspect.getattr cls name = Some v.
Proof.
  unfold Inspect.getmembers. rewrite list_elem_of_omap. split.
  - intros (n & _ & Hn). destruct (Inspect.getattr cls n) eqn:Hg; [|discriminate].
    cbn in Hn. now inversion Hn; subst.
  - intros Hg. exists name. split; [|now rewrite Hg].
    rewrite merge_sort_Permutation, elem_of_elements.
    apply getattr_is_Some_dir. eauto.
Qed.

Lemma getmembers_names cls :
  list_to_set (map fst (Inspect.getmembers cls)) =@{gset string} Inspect.dir cls.
Proof.
  apply set_eq. intros name. rewrite elem_of_list_to_set, <- getattr_is_Some_dir.
  rewrite list_elem_of_fmap. split.
  - intros ([n v] & -> & Hin). apply getmembers_elem in Hin. cbn. eauto.
  - intros [v Hv]. exists (name, v). split; [reflexivity|now apply getmembers_elem].
Qed.

Lemma NoDup_fst_omap {V} (g : string -> option V) (l : list string) :
  NoDup l ->
  NoDup (map fst (omap (fun name => (fun v => (name, v)) <$> g name) l)).
Proof.
  induction 1 as [|x l Hx Hl IH]; [constructor|]. cbn.
  destruct (g x) as [v|]; cbn; [|exact IH].
  constructor; [|exact IH]. intros Hin. apply Hx.
  apply list_elem_of_fmap in Hin as ([n w] & -> & Hin).
  apply list_elem_of_omap in Hin as (y & Hy & Hgy).
  destruct (g y); [|discriminate]. cbn in Hgy. now inversion Hgy; subst.
Qed.

Lemma getmembers_NoDup cls : NoDup (map fst (Inspect.getmembers cls)).
Proof.
  apply NoDup_fst_omap. rewrite merge_sort_Permutation. apply NoDup_elements.
Qed.

Lemma libmembers_inherited cls :
  ⋃ (map (fun _cls => list_to_set (map fst (Inspect.getmembers _cls)))
         (tail (Inspect.getmro cls)))
  =@{gset string} inherited_names cls.
Proof.
  unfold inherited_names. induction (tail (Inspect.getmro cls)) as [|b bs IH];
    [reflexivity|]. cbn. now rewrite IH, getmembers_names.
Qed.

(** The loop of [_apply_decorator] with a decorator that does not raise:
    every member that is not skipped is replaced, nothing else changes. *)
Lemma _apply_decorator_loop_total (libmembers : gset string)
    (decorator : callable Meta St -> result (callable Meta St))
    (d : callable Meta St -> callable Meta St) :
  (forall f, decorator f = Ok (d f)) ->
  forall members cls, NoDup (map fst members) ->
  exists dict',
    Transformer._apply_decorator_loop libmembers decorator members cls
    = (Ok tt, Class dict' (tail (Inspect.getmro cls)))
    /\ (forall name v, (name, v) ∈ members ->
          startswith_underscore name || bool_decide (name ∈ libmembers) = false ->
          dict' !! name = Some (d v))
    /\ (forall name,
          startswith_underscore name || bool_decide (name ∈ libmembers) = true
          \/ name ∉ map fst members ->
          dict' !! name = Inspect.class_dict cls !! name).
Proof.
  intros Hd members. induction members as [|[n v] rest IH]; intros cls Hnd.
  - exists (Inspect.class_dict cls). destruct cls as [dict bases].
    split; [reflexivity|]. split; [|reflexivity].
    intros name v Hin. now apply elem_of_nil in Hin.
  - cbn in Hnd. apply NoDup_cons in Hnd as [Hn Hrest].
    cbn [Transformer._apply_decorator_loop].
    destruct (startswith_underscore n || bool_decide (n ∈ libmembers)) eqn:Hskip.
    + destruct (IH cls Hrest) as (dict' & Hrun & Hwrapped & Hkept).
      exists dict'. split; [exact Hrun|]. split.
      * intros name w Hin Hname. apply elem_of_cons in Hin as [Heq|Hin].
        -- inversion Heq; subst. congruence.
        -- now apply Hwrapped.
      * intros name [Hname|Hname]; apply Hkept; [now left|].
        right. cbn in Hname. now apply not_elem_of_cons in Hname as [_ ?].
    + rewrite Hd. destruct (IH (Inspect.setattr cls n (d v)) Hrest)
        as (dict' & Hrun & Hwrapped & Hkept).
      assert (Hbases : tail (Inspect.getmro (Inspect.setattr cls n (d v)))
                       = tail (Inspect.getmro cls)) by now destruct cls.
      rewrite Hbases in Hrun.
      assert (Hdict : forall name, name <> n ->
                Inspect.class_dict (Inspect.setattr cls n (d v)) !! name
                = Inspect.class_dict cls !! name).
      { intros name Hne. destruct cls as [dict bases]. cbn.
        now apply lookup_insert_ne. }
      exists dict'. split; [exact Hrun|]. split.
      * intros name w Hin Hname. apply elem_of_cons in Hin as [Heq|Hin].
        -- inversion Heq; subst. rewrite Hkept by now right.
           destruct cls as [dict bases]. cbn. apply lookup_insert_eq.
        -- now apply Hwrapped.
      * intros name Hname.
        assert (Hne : name <> n).
        { intros ->. destruct Hname as [Hname|Hname]; [congruence|].
          apply Hname. cbn. now left. }
        rewrite Hkept, Hdict; [reflexivity|exact Hne|].
        destruct Hname as [Hname|Hname]; [now left|right].
        cbn in Hname. now apply not_elem_of_cons in Hname as [_ ?].
Qed.

Lemma _apply_decorator_total
    (decorator : callable Meta St -> result (callable Meta St))
    (d : callable Meta St -> callable Meta St) cls :
  (forall f, decorator f = Ok (d f)) ->
  exists dict',
    Transformer._apply_decorator decorator cls
    = (Ok (Class dict' (tail (Inspect.getmro cls))),
       Class dict' (tail (Inspect.getmro cls)))
    /\ forall name,
         dict' !! name
         = match Inspect.class_dict cls !! name with
           | Some v =>
               if startswith_underscore name
                  || bool_decide (name ∈ inherited_names cls)
               then Some v
               else Some (d v)
           | None => None
           end.
Proof.
  intros Hd. unfold Transformer._apply_decorator. rewrite libmembers_inherited.
  destruct (_apply_decorator_loop_total (inherited_names cls) decorator d Hd
              (Inspect.getmembers cls) cls (getmembers_NoDup cls))
    as (dict' & Hrun & Hwrapped & Hkept).
  exists dict'. unfold bind. rewrite Hrun. split; [reflexivity|].
  intros name.
  destruct (startswith_underscore name || bool_decide (name ∈ inherited_names cls))
    eqn:Hskip.
  - rewrite Hkept by now left. now destruct (Inspect.class_dict cls !! name).
  - apply orb_false_iff in Hskip as Hparts. destruct Hparts as [_ Hinh].
    apply bool_decide_eq_false in Hinh.
    destruct (Inspect.class_dict cls !! name) as [v|] eqn:Hown.
    + apply (Hwrapped name v); [|exact Hskip].
      apply getmembers_elem. now rewrite getattr_own.
    + rewrite Hkept; [exact Hown|]. right. intros Hin.
      apply list_elem_of_fmap in Hin as ([n w] & -> & Hin).
      apply getmembers_elem in Hin. cbn in Hown.
      rewrite getattr_own in Hin by exact Hinh. congruence.
Qed.
End class_facts.

(** C5, as the code has it.  Applied to a class, a decorator that does not
    raise replaces exactly the members the class body defines whose names
    neither start with an underscore nor are names of members of a base
    class; the test is on the name alone, so a method that overrides an
    inherited one is skipped like one inherited unchanged.  Every name of a
    base class resolves to the same object as before, so a sibling method
    inherited from a base class is not wrapped again. *)
Theorem apply_decorator_wraps_new_public_names {Meta St : Type}
    (cls : pyclass Meta St)
    (decorator : callable Meta St -> result (callable Meta St))
    (d : callable Meta St -> callable Meta St) :
  (forall f, decorator f = Ok (d f)) ->
  exists cls',
    Transformer._apply_decorator decorator cls = (Ok cls', cls')
    /\ tail (Inspect.getmro cls') = tail (Inspect.getmro cls)
    /\ (forall name,
          Inspect.class_dict cls' !! name
          = match Inspect.class_dict cls !! name with
            | Some v =>
                if startswith_underscore name
                   || bool_decide (name ∈ inherited_names cls)
                then Some v
                else Some (d v)
            | None => None
            end)
    /\ (forall name, name ∈ inherited_names cls ->
          Inspect.getattr cls' name = Inspect.getattr cls name).
Proof.
  intros Hd. destruct (_apply_decorator_total decorator d cls Hd) as (dict' & Hrun & Hdict).
  exists (Class dict' (tail (Inspect.getmro cls))).
  split; [exact Hrun|]. split; [reflexivity|]. split; [exact Hdict|].
  intros name Hin. destruct cls as [dict bases]. unfold Inspect.getattr. cbn.
  specialize (Hdict name). cbn in Hdict. rewrite Hdict.
  rewrite (bool_decide_eq_true_2 _ Hin), orb_true_r.
  now destruct (dict !! name).
Qed.

Lemma apply_decorator_wraps_new_public_names_witness :
  (forall f, Examples.inline_dec f = Ok (Wrapper true false f))
  /\ exists cls',
       Transformer._apply_decorator Examples.inline_dec Examples.Sub = (Ok cls', cls')
       /\ Inspect.class_dict cls' !! "atom"
          = Some (Wrapper true false (Examples.method "Sub.atom"))
       /\ Inspect.getattr cls' "term"
          = Some (Wrapper true false (Examples.method "Base.term")).
Proof.
  assert (H : forall f, Examples.inline_dec f = Ok (Wrapper true false f))
    by reflexivity.
  split; [exact H|].
  destruct (apply_decorator_wraps_new_public_names Examples.Sub Examples.inline_dec
              (Wrapper true false) H) as (cls' & Hrun & _ & Hdict & Hinh).
  exists cls'. split; [exact Hrun|]. split.
  - rewrite Hdict. reflexivity.
  - rewrite Hinh; [reflexivity|]. vm_compute. reflexivity.
Defined.

(** C5 fails as stated: [Sub] defines [expr] itself, with a definition that
    is not the one of [Base], and decorating [Sub] leaves [expr] unwrapped,
    while [atom] is wrapped. *)
Lemma apply_decorator_counterexample :
  Inspect.class_dict Examples.Sub !! "expr" = Some (Examples.method "Sub.expr")
  /\ Inspect.getattr Examples.Base "expr"
     = Some (Wrapper true false (Examples.method "Base.expr"))
  /\ Inspect.class_dict
       (Transformer._apply_decorator Examples.inline_dec Examples.Sub).2 !! "expr"
     = Some (Examples.method "Sub.expr")
  /\ Inspect.class_dict
       (Transformer._apply_decorator Examples.inline_dec Examples.Sub).2 !! "atom"
     = Some (Wrapper true false (Examples.method "Sub.atom")).
Proof. repeat split; vm_compute; reflexivity. Qed.

(** ** The shape flags *)

(** C9. Asking for [inline] and [meta] together fails when the decorator is
    made ([ValueError]) or applied to a function ([AssertionError]); with one
    flag or none, the decorator is made and decorates a function or a class;
    and the dispatcher turns the flags of a handler into a call of it, in
    whatever combination, so the traversal raises nothing about them. *)
Theorem visitor_args_configuration_error {Meta St : Type} :
  visitor_args (Meta := Meta) (St := St) true true = Raise ValueError
  /\ (forall f : callable Meta St, _visitor_args_func_dec f true true = Raise AssertionError)
  /\ (forall inline meta, inline && meta = false ->
        exists dec, visitor_args (Meta := Meta) (St := St) inline meta = Ok dec
          /\ (forall f, dec (Func f) = Ok (Func (Wrapper inline meta f)))
          /\ (forall cls, exists cls', dec (Cls cls) = Ok (Cls cls')))
  /\ (forall (self : holder Meta St) data f inline meta children m,
        self !! data = Some (Wrapper inline meta f) ->
        Transformer._call_userfunc self data children m
        = call f (if meta then [PyList children; PyMeta m]
                  else if inline then children
                  else [PyList children])).
Proof.
  split; [reflexivity|]. split; [reflexivity|]. split.
  - intros inline meta Hflags. unfold visitor_args. rewrite Hflags.
    eexists. split; [reflexivity|]. split.
    + intros f. cbn. unfold _visitor_args_func_dec. now rewrite Hflags.
    + intros cls. cbn.
      destruct (_apply_decorator_total
                  (fun f => _visitor_args_func_dec f inline meta)
                  (Wrapper inline meta) cls) as (dict' & Hrun & _).
      { intros f. unfold _visitor_args_func_dec. now rewrite Hflags. }
      rewrite Hrun. eauto.
  - intros self data f inline meta children m Hf.
    unfold Transformer._call_userfunc. rewrite Hf. cbn.
    now destruct meta, inline.
Qed.

Lemma visitor_args_configuration_error_witness :
  true && false = false
  /\ exists dec,
       visitor_args (Meta := nat) (St := unit) true false = Ok dec
       /\ dec (Func (Examples.method "expr"))
          = Ok (Func (Wrapper true false (Examples.method "expr"))).
Proof.
  split; [reflexivity|].
  destruct (proj1 (proj2 (proj2 (@visitor_args_configuration_error nat unit)))
              true false eq_refl) as (dec & Hdec & Hfunc & _).
  exists dec. split; [exact Hdec|apply Hfunc].
Defined.

(** ** The interpreter *)

Section interpreter_facts.
Context {Meta St : Type}.
Implicit Types (methods : gmap string (Interpreter.method Meta St)).

Lemma comprehension_visited (visit : value Meta -> M St (value Meta)) cs :
  forall s vs s',
    Interpreter.comprehension visit cs s = (Ok vs, s') <-> visited visit cs s vs s'.
Proof.
  induction cs as [|c cs IH]; intros s vs s'.
  - split.
    + intros H. inversion H; subst. constructor.
    + intros H. inversion H; subst. reflexivity.
  - cbn [Interpreter.comprehension]. unfold bind.
    destruct (isinstance_Tree c) eqn:Hc.
    + destruct (visit c s) as [[v|e] s1] eqn:Hv.
      * destruct (Interpreter.comprehension visit cs s1) as [[vs1|e1] s2] eqn:Hr.
        -- split.
           ++ intros H. inversion H; subst.
              eapply visited_node; eauto. now apply IH.
           ++ intros H. inversion H; subst; [congruence|].
              assert (v0 = v /\ s3 = s1) as [-> ->] by (split; congruence).
              match goal with Hvis : visited _ cs s1 _ _ |- _ =>
                apply IH in Hvis; rewrite Hr in Hvis; now inversion Hvis end.
        -- split; [discriminate|].
           intros H. inversion H; subst; [congruence|].
           assert (s3 = s1) as -> by congruence.
           match goal with Hvis : visited _ cs s1 _ _ |- _ =>
             apply IH in Hvis; rewrite Hr in Hvis; discriminate end.
      * split; [discriminate|].
        intros H. inversion H; subst; congruence.
    + cbn. destruct (Interpreter.comprehension visit cs s) as [[vs1|e1] s2] eqn:Hr.
      * split.
        -- intros H. inversion H; subst. apply visited_leaf; [exact Hc|].
           now apply IH.
        -- intros H. inversion H; subst; [|congruence].
           match goal with Hvis : visited _ cs s _ _ |- _ =>
             apply IH in Hvis; rewrite Hr in Hvis; now inversion Hvis end.
      * split; [discriminate|].
        intros H. inversion H; subst; [|congruence].
        match goal with Hvis : visited _ cs s _ _ |- _ =>
          apply IH in Hvis; rewrite Hr in Hvis; discriminate end.
Qed.

Lemma send_S methods depth name arg :
  Interpreter.send methods (S depth) name arg
  = match (methods ∪ Interpreter.class_dict) !! name with
    | Some f => f (Interpreter.send methods depth) arg
    | None =>
        match (methods ∪ Interpreter.class_dict) !! "__default__" with
        | Some f => f (Interpreter.send methods depth) arg
        | None => raise AttributeError
        end
    end.
Proof. reflexivity. Qed.

Lemma send_library methods depth name (f : Interpreter.method Meta St) :
  methods !! name = None ->
  Interpreter.class_dict !! name = Some f ->
  Interpreter.send methods (S depth) name = f (Interpreter.send methods depth).
Proof.
  intros Hm Hc. cbn [Interpreter.send].
  now rewrite (lookup_union_r _ _ _ Hm), Hc.
Qed.

Lemma send_handler methods depth name (f : Interpreter.method Meta St) :
  methods !! name = Some f ->
  Interpreter.send methods (S depth) name = f (Interpreter.send methods depth).
Proof.
  intros Hm. cbn [Interpreter.send].
  now rewrite (lookup_union_Some_l _ _ _ _ Hm).
Qed.
End interpreter_facts.

(** C6. On a node whose tag names no attribute of the holder, [visit] ends
    in the library's [__default__], which calls [visit_children]; and
    [visit_children] returns the list that holds, in order, each leaf child
    as it is and, for each child that is a node, what [visit] returns on it. *)
Theorem interpreter_default_and_visit_children {Meta St : Type}
    (methods : gmap string (Interpreter.method Meta St)) (depth : nat)
    (data : string) (children : list (value Meta)) (meta : Meta) :
  (methods ∪ Interpreter.class_dict) !! data = None ->
  methods !! "visit" = None ->
  methods !! "__default__" = None ->
  Interpreter.send methods (S (S depth)) "visit" (Tree data children meta)
  = Interpreter.send methods depth "visit_children" (Tree data children meta)
  /\ (methods !! "visit_children" = None ->
      Interpreter.send methods (S (S (S depth))) "visit" (Tree data children meta)
      = Interpreter.visit_children (Interpreter.send methods depth)
          (Tree data children meta))
  /\ (forall (self : string -> value Meta -> M St (value Meta)) s v s',
        Interpreter.visit_children self (Tree data children meta) s = (Ok v, s')
        <-> exists vs, v = PyList vs /\ visited (self "visit") children s vs s').
Proof.
  intros Hmiss Hvisit Hdefault.
  assert (Hfall : forall depth,
            Interpreter.send methods (S (S depth)) "visit" (Tree data children meta)
            = Interpreter.send methods depth "visit_children" (Tree data children meta)).
  { intros d.
    rewrite (send_library methods (S d) "visit" Interpreter.visit Hvisit eq_refl).
    cbn [Interpreter.visit]. rewrite send_S, Hmiss.
    now rewrite (lookup_union_r _ _ _ Hdefault). }
  split; [apply Hfall|]. split.
  - intros Hchildren. rewrite Hfall.
    now rewrite (send_library methods depth "visit_children"
                   Interpreter.visit_children Hchildren eq_refl).
  - intros self s v s'. cbn [Interpreter.visit_children]. unfold bind.
    destruct (Interpreter.comprehension (self "visit") children s) as [[vs|e] s1] eqn:Hr.
    + split.
      * intros H. inversion H; subst. exists vs. split; [reflexivity|].
        now apply comprehension_visited.
      * intros (vs' & -> & Hvis). apply comprehension_visited in Hvis.
        rewrite Hr in Hvis. now inversion Hvis.
    + split; [discriminate|].
      intros (vs' & -> & Hvis). apply comprehension_visited in Hvis.
      rewrite Hr in Hvis. discriminate.
Qed.

Lemma interpreter_default_and_visit_children_witness :
  (Examples.bare ∪ Interpreter.class_dict) !! "start" = None
  /\ Examples.bare !! "visit" = None
  /\ Examples.bare !! "__default__" = None
  /\ Interpreter.send Examples.bare 12 "visit" Examples.small []
     = (Ok (PyList [PyList [PyStr "x"]; PyStr ","; PyList [PyStr "y"]]), []).
Proof.
  split; [reflexivity|]. split; [reflexivity|]. split; [reflexivity|].
  exact (f_equal (fun f : M (list string) (value nat) => f [])
           (proj1 (interpreter_default_and_visit_children
                     Examples.bare 10 "start" _ 0 eq_refl eq_refl eq_refl))).
Defined.

(** C7, as the code has it.  [visit] calls the handler found for the tag
    and does nothing else, so a subtree is visited only when a handler asks
    for it: when the handler of a node visits its first child alone, the
    visit of the node is the run of that child's handler, whatever the other
    children and their handlers are.  [visit_children] itself visits every
    child that is a node. *)
Theorem interpreter_descends_only_on_request {Meta St : Type}
    (methods : gmap string (Interpreter.method Meta St)) (depth : nat) :
  methods !! "visit" = None ->
  (forall data f children meta,
     methods !! data = Some f ->
     Interpreter.send methods (S (S depth)) "visit" (Tree data children meta)
     = f (Interpreter.send methods depth) (Tree data children meta))
  /\ (forall x y hy ys my rest mx,
        methods !! x = Some Examples.first_child_only ->
        methods !! y = Some hy ->
        Interpreter.send methods (S (S (S (S depth)))) "visit"
          (Tree x (Tree y ys my :: rest) mx)
        = hy (Interpreter.send methods depth) (Tree y ys my)).
Proof.
  intros Hvisit.
  assert (Hone : forall depth data f children meta,
            methods !! data = Some f ->
            Interpreter.send methods (S (S depth)) "visit" (Tree data children meta)
            = f (Interpreter.send methods depth) (Tree data children meta)).
  { intros d data f children meta Hf.
    rewrite (send_library methods (S d) "visit" Interpreter.visit Hvisit eq_refl).
    cbn [Interpreter.visit]. now rewrite (send_handler methods d data f Hf). }
  split; [apply Hone|].
  intros x y hy ys my rest mx Hx Hy.
  rewrite (Hone (S (S depth)) x _ _ _ Hx). cbn [Examples.first_child_only].
  apply (Hone depth y hy ys my Hy).
Qed.

Lemma interpreter_descends_only_on_request_witness :
  Examples.lazy !! "visit" = None
  /\ Examples.lazy !! "X" = Some Examples.first_child_only
  /\ Examples.lazy !! "Y" = Some (Examples.noting "Y")
  /\ Interpreter.send Examples.lazy 4 "visit" Examples.xyz [] = (Ok (PyStr "Y"), ["Y"]).
Proof.
  split; [reflexivity|]. split; [reflexivity|]. split; [reflexivity|].
  exact (f_equal (fun f : M (list string) (value nat) => f [])
           (proj2 (interpreter_descends_only_on_request Examples.lazy 0 eq_refl)
              "X" "Y" (Examples.noting "Y") [] 1 [Tree "Z" [] 2] 0 eq_refl eq_refl)).
Defined.

(** C7 fails as stated: the handler of [X] calls [visit_children] and returns
    the result for [Y] alone, and the handler of [Z] has run all the same. *)
Lemma interpreter_laziness_counterexample :
  Examples.eager !! "X" = Some Examples.first_of_children
  /\ Interpreter.send Examples.eager 8 "visit" Examples.xyz []
     = (Ok (PyStr "Y"), ["Y"; "Z"]).
Proof. split; reflexivity. Qed.

(** ** In place and by copy *)

Lemma Forall3_all_Forall3 {A B C} (P Q : A -> B -> C -> Prop) l1 l2 l3
    (H : Forall3 P l1 l2 l3) :
  Forall3_all A B C P (fun a b c _ => Q a b c) l1 l2 l3 H ->
  Forall3 (fun a b c => P a b c /\ Q a b c) l1 l2 l3.
Proof. induction 1; constructor; auto. Qed.

Section object_facts.
Context {Meta St : Type}.
Variable self : holder Meta St.
Import Objects.
Implicit Types (st : store Meta) (c : child Meta) (t : value Meta) (fp : list loc).

Lemma height_children (cs : list (value Meta)) n :
  foldr (fun t n => height t `max` n) 0 cs <= n ->
  Forall (fun t => height t <= n) cs.
Proof.
  induction cs as [|t cs IH]; cbn; intros H; constructor; [lia|apply IH; lia].
Qed.

Lemma obj_transform_tree_S depth l σ :
  Transformer_obj._transform_tree self (S depth) l σ
  = (let! o := get_object l in
     let! children := Transformer_obj._transform_children self depth (obj_children o) in
     lift (Transformer._call_userfunc self (obj_data o) children (obj_meta o))) σ.
Proof. reflexivity. Qed.

Lemma obj_transform_children_cons depth c rest σ :
  Transformer_obj._transform_children self depth (c :: rest) σ
  = match Transformer_obj.reduce self depth c σ with
    | (Ok v, σ') =>
        (let! vs := Transformer_obj._transform_children self depth rest in
         ret (v :: vs)) σ'
    | (Raise Discard, σ') => Transformer_obj._transform_children self depth rest σ'
    | (Raise e, σ') => (Raise e, σ')
    end.
Proof. reflexivity. Qed.

(** The copying transform on objects: the store is read, never written. *)
Lemma obj_children_copy st depth slots (cs : list (value Meta)) (fps : list (list loc)) :
  Forall3 (fun c t (_ : list loc) => forall s,
             Transformer_obj.reduce self depth c (st, s)
             = ((reduce (Transformer._call_userfunc self) t s).1,
                (st, (reduce (Transformer._call_userfunc self) t s).2)))
          slots cs fps ->
  forall s,
    Transformer_obj._transform_children self depth slots (st, s)
    = ((Traversal._transform_children (Transformer._call_userfunc self) cs s).1,
       (st, (Traversal._transform_children (Transformer._call_userfunc self) cs s).2)).
Proof.
  induction 1 as [|c t fp slots cs fps Hc _ IH]; intros s; [reflexivity|].
  rewrite obj_transform_children_cons, _transform_children_cons, Hc.
  destruct (reduce (Transformer._call_userfunc self) t s) as [[v|e] s1]; cbn [fst snd].
  - unfold bind. rewrite IH.
    now destruct (Traversal._transform_children (Transformer._call_userfunc self) cs s1)
      as [[vs|e] s2].
  - destruct e; try reflexivity. apply IH.
Qed.

Lemma obj_reduce_copy st c t fp :
  represents st c t fp ->
  forall depth s, height t <= depth ->
    Transformer_obj.reduce self depth c (st, s)
    = ((reduce (Transformer._call_userfunc self) t s).1,
       (st, (reduce (Transformer._call_userfunc self) t s).2)).
Proof.
  induction 1 as [v Hv|l children fps Hrep IH]; intros depth s Hh.
  - cbn. unfold reduce. now rewrite Hv.
  - destruct depth as [|depth]; [cbn in Hh; lia|].
    cbn [height] in Hh. apply le_S_n, height_children in Hh.
    apply Forall3_all_Forall3 in IH.
    cbn [Transformer_obj.reduce]. rewrite obj_transform_tree_S.
    unfold reduce. cbn [isinstance_Tree]. rewrite _transform_tree_unfold.
    unfold bind at 1 2. unfold get_object at 1. cbn [fst snd].
    rewrite (obj_children_copy st depth _ children fps).
    + unfold bind.
      destruct (Traversal._transform_children (Transformer._call_userfunc self) children s)
        as [[vs|e] s1]; cbn [fst snd]; [|reflexivity].
      unfold lift. cbn [fst snd].
      now destruct (Transformer._call_userfunc self (obj_data (st l)) vs (obj_meta (st l)) s1).
    + clear -IH Hh. revert Hh. induction IH as [|c t fp slots cs fps [_ Hc] _ IH'];
        intros Hh; constructor.
      * intros s. apply Hc. now apply Forall_cons in Hh as [? _].
      * apply IH'. now apply Forall_cons in Hh as [_ ?].
Qed.
End object_facts.

Section in_place_facts.
Context {Meta St : Type}.
Variable self : holder Meta St.
Import Objects.
Implicit Types (st : store Meta) (c : child Meta) (t : value Meta) (fp : list loc).

Lemma ip_transform_tree_S depth l σ :
  Transformer_InPlaceRecursive._transform_tree self (S depth) l σ
  = (let! o := get_object l in
     let! children :=
       Transformer_InPlaceRecursive._transform_children self depth (obj_children o) in
     let! _ := assign_children l (map Val children) in
     let! o := get_object l in
     lift (Transformer._call_userfunc self (obj_data o) children (obj_meta o))) σ.
Proof. reflexivity. Qed.

Lemma ip_transform_children_cons depth c rest σ :
  Transformer_InPlaceRecursive._transform_children self depth (c :: rest) σ
  = match Transformer_InPlaceRecursive.reduce self depth c σ with
    | (Ok v, σ') =>
        (let! vs := Transformer_InPlaceRecursive._transform_children self depth rest in
         ret (v :: vs)) σ'
    | (Raise Discard, σ') =>
        Transformer_InPlaceRecursive._transform_children self depth rest σ'
    | (Raise e, σ') => (Raise e, σ')
    end.
Proof. reflexivity. Qed.

Lemma settled_transfer st st' fp (calls : list (string * list (value Meta) * Meta)) :
  (forall l, l ∈ fp -> st' l = st l) ->
  Forall2 (settled st) fp calls -> Forall2 (settled st') fp calls.
Proof.
  intros Hsame H. induction H as [|l call fp calls Hl _ IH]; constructor.
  - unfold settled in *. rewrite Hsame; [exact Hl|now left].
  - apply IH. intros l' Hl'. apply Hsame. now right.
Qed.

Lemma in_place_children st depth slots (cs : list (value Meta)) (fps : list (list loc)) :
  Forall3 (in_place_spec self st depth) slots cs fps ->
  forall st1 s log,
    (forall l, l ∈ List.concat fps -> st1 l = st l) -> NoDup (List.concat fps) ->
    exists st2 calls,
      Traversal._transform_children (traced (Transformer._call_userfunc self)) cs (s, log)
      = ((Traversal._transform_children (Transformer._call_userfunc self) cs s).1,
         ((Traversal._transform_children (Transformer._call_userfunc self) cs s).2,
          log ++ calls))
      /\ Transformer_InPlaceRecursive._transform_children self depth slots (st1, s)
         = ((Traversal._transform_children (Transformer._call_userfunc self) cs s).1,
            (st2, (Traversal._transform_children (Transformer._call_userfunc self) cs s).2))
      /\ (forall l, l ∉ List.concat fps -> st2 l = st1 l)
      /\ ((exists vs, (Traversal._transform_children
                         (Transformer._call_userfunc self) cs s).1 = Ok vs) ->
          Forall2 (settled st2) (List.concat fps) calls).
Proof.
  induction 1 as [|c t fp slots cs fps Hc _ IH]; intros st1 s log Hagree Hnd.
  - exists st1, []. rewrite app_nil_r. cbn. repeat split; constructor.
  - cbn [List.concat] in Hagree, Hnd |- *.
    apply NoDup_app in Hnd as (Hnd1 & Hdisj & Hnd2).
    destruct (Hc st1 s log) as (st2 & calls1 & Htr & Hip & Hframe & Hset);
      [intros l Hl; apply Hagree, elem_of_app; now left|exact Hnd1|].
    rewrite ip_transform_children_cons, !_transform_children_cons, Htr, Hip.
    destruct (reduce (Transformer._call_userfunc self) t s) as [r1 s1].
    cbn [fst snd] in *.
    assert (Hagree2 : forall l, l ∈ List.concat fps -> st2 l = st l).
    { intros l Hl. rewrite Hframe.
      - apply Hagree, elem_of_app. now right.
      - intros Hl1. exact (Hdisj l Hl1 Hl). }
    destruct r1 as [v|e]; [|destruct (decide (e = Discard)) as [->|Hne]].
    + destruct (IH st2 s1 (log ++ calls1) Hagree2 Hnd2)
        as (st3 & calls2 & Htr2 & Hip2 & Hframe2 & Hset2).
      exists st3, (calls1 ++ calls2). unfold bind. rewrite Htr2, Hip2, app_assoc.
      destruct (Traversal._transform_children (Transformer._call_userfunc self) cs s1)
        as [[vs|e] s2]; cbn [fst snd] in *;
        (split; [reflexivity|split; [reflexivity|split]]).
      * intros l Hl. apply not_elem_of_app in Hl as [Hl1 Hl2].
        now rewrite Hframe2, Hframe.
      * intros _. apply Forall2_app; [|apply Hset2; eauto].
        apply settled_transfer with (st := st2); [|now apply Hset].
        intros l Hl. apply Hframe2. intros Hl2. exact (Hdisj l Hl Hl2).
      * intros l Hl. apply not_elem_of_app in Hl as [Hl1 Hl2].
        now rewrite Hframe2, Hframe.
      * now intros [vs Hvs].
    + destruct (IH st2 s1 (log ++ calls1) Hagree2 Hnd2)
        as (st3 & calls2 & Htr2 & Hip2 & Hframe2 & Hset2).
      exists st3, (calls1 ++ calls2). rewrite Htr2, Hip2, app_assoc.
      split; [reflexivity|split; [reflexivity|split]].
      * intros l Hl. apply not_elem_of_app in Hl as [Hl1 Hl2].
        now rewrite Hframe2, Hframe.
      * intros Hok. apply Forall2_app; [|now apply Hset2].
        apply settled_transfer with (st := st2); [|now apply Hset].
        intros l Hl. apply Hframe2. intros Hl2. exact (Hdisj l Hl Hl2).
    + exists st2, calls1.
      split; [now destruct e|split; [now destruct e|split]].
      * intros l Hl. apply not_elem_of_app in Hl as [Hl1 Hl2]. now apply Hframe.
      * intros [vs Hvs]. destruct e; discriminate || congruence.
Qed.

Lemma in_place_reduce st c t fp :
  represents st c t fp ->
  forall depth, height t <= depth -> in_place_spec self st depth c t fp.
Proof.
  induction 1 as [v Hv|l children fps Hrep IH]; intros depth Hh st1 s log Hagree Hnd.
  - exists st1, []. rewrite app_nil_r. unfold reduce. cbn. rewrite Hv. cbn.
    repeat split; constructor.
  - destruct depth as [|depth]; [cbn in Hh; lia|].
    cbn [height] in Hh. apply le_S_n, height_children in Hh.
    apply Forall3_all_Forall3 in IH.
    assert (Hcs : Forall3 (in_place_spec self st depth)
                    (obj_children (st l)) children fps).
    { clear -IH Hh. revert Hh.
      induction IH as [|c t fp slots cs fps [_ Hc] _ IH']; intros Hh; constructor.
      - apply Hc. now apply Forall_cons in Hh as [? _].
      - apply IH'. now apply Forall_cons in Hh as [_ ?]. }
    apply NoDup_app in Hnd as (Hnd1 & Hdisj & _).
    assert (Hl : forall l', l' ∈ List.concat fps -> l' <> l).
    { intros l' Hl' ->. apply (Hdisj l Hl'). now left. }
    destruct (in_place_children st depth _ children fps Hcs st1 s log)
      as (st2 & calls & Htr & Hip & Hframe & Hset);
      [intros l' Hl'; apply Hagree, elem_of_app; now left|exact Hnd1|].
    assert (Hst2 : st2 l = st l).
    { rewrite Hframe.
      - apply Hagree, elem_of_app. right. now left.
      - intros Hin. now apply (Hl l Hin). }
    destruct (Traversal._transform_children (Transformer._call_userfunc self) children s)
      as [[vs|e] s1] eqn:Hplain; cbn [fst snd] in Htr, Hip, Hset.
    + destruct (Transformer._call_userfunc self (obj_data (st l)) vs (obj_meta (st l)) s1)
        as [r s'] eqn:Hcall.
      exists (fun l' => if decide (l' = l)
                        then New_tree (obj_data (st2 l')) (map Val vs) (obj_meta (st2 l'))
                        else st2 l'),
             (calls ++ [(obj_data (st l), vs, obj_meta (st l))]).
      split; [|split; [|split]].
      * unfold reduce. cbn [isinstance_Tree]. rewrite !_transform_tree_unfold.
        unfold bind. rewrite Htr, Hplain. unfold traced. cbn [fst snd].
        now rewrite Hcall, app_assoc.
      * cbn [Transformer_InPlaceRecursive.reduce]. rewrite ip_transform_tree_S.
        unfold reduce. cbn [isinstance_Tree]. rewrite _transform_tree_unfold.
        unfold bind, get_object. cbn [fst snd].
        rewrite (Hagree l) by (apply elem_of_app; right; now left).
        rewrite Hip, Hplain. unfold assign_children, lift. cbn [fst snd].
        rewrite decide_True by reflexivity. cbn [obj_data obj_meta].
        now rewrite Hst2, Hcall.
      * intros l' Hl'. apply not_elem_of_app in Hl' as [Hl1 Hl2].
        rewrite decide_False; [now apply Hframe|].
        intros ->. apply Hl2. now left.
      * intros _. apply Forall2_app.
        -- apply settled_transfer with (st := st2); [|apply Hset; eauto].
           intros l' Hl'. rewrite decide_False; [reflexivity|now apply Hl].
        -- constructor; [|constructor]. unfold settled. cbn [fst snd].
           rewrite decide_True by reflexivity. now rewrite Hst2.
    + exists st2, calls.
      split; [|split; [|split]].
      * unfold reduce. cbn [isinstance_Tree]. rewrite !_transform_tree_unfold.
        unfold bind. now rewrite Htr, Hplain.
      * cbn [Transformer_InPlaceRecursive.reduce]. rewrite ip_transform_tree_S.
        unfold reduce. cbn [isinstance_Tree]. rewrite _transform_tree_unfold.
        unfold bind, get_object. cbn [fst snd].
        rewrite (Hagree l) by (apply elem_of_app; right; now left).
        now rewrite Hip, Hplain.
      * intros l' Hl'. apply not_elem_of_app in Hl' as [Hl1 Hl2]. now apply Hframe.
      * unfold reduce. cbn [isinstance_Tree]. rewrite _transform_tree_unfold.
        unfold bind. rewrite Hplain. cbn. intros ->.
        now apply _transform_children_never_Discard in Hplain.
Qed.
End in_place_facts.

(** C8. On a tree held as objects, none shared, and with depth enough for
    its height, [Transformer_InPlaceRecursive.transform] and
    [Transformer.transform] return the same result and leave the holder in
    the same state, whatever the handlers raise; the copying transform leaves
    every object as it was, the in-place one leaves each node of the tree
    with, as its children, the reduced children that node was dispatched
    with (when the transform returns), and touches no other object. *)
Theorem in_place_recursive_agrees_with_copy {Meta St : Type}
    (self : holder Meta St) (st : Objects.store Meta) (l : Objects.loc)
    (t : value Meta) (fp : list Objects.loc) (depth : nat) (s : St) :
  represents st (Objects.Ref l) t fp ->
  NoDup fp ->
  height t <= depth ->
  exists (st' : Objects.store Meta) calls,
    Traversal.transform (traced (Transformer._call_userfunc self)) t (s, [])
    = ((Transformer.transform self t s).1, ((Transformer.transform self t s).2, calls))
    /\ Transformer_obj.transform self depth l (st, s)
       = ((Transformer.transform self t s).1, (st, (Transformer.transform self t s).2))
    /\ Transformer_InPlaceRecursive.transform self depth l (st, s)
       = ((Transformer.transform self t s).1, (st', (Transformer.transform self t s).2))
    /\ (forall l', l' ∉ fp -> st' l' = st l')
    /\ (completes (Transformer.transform self t s).1 -> Forall2 (settled st') fp calls).
Proof.
  intros Hrep Hnd Hh.
  pose proof (obj_reduce_copy self st _ t fp Hrep depth s Hh) as Hcopy.
  destruct (in_place_reduce self st _ t fp Hrep depth Hh st s [] (fun _ _ => eq_refl) Hnd)
    as (st' & calls & Htr & Hip & Hframe & Hset).
  assert (Ht : reduce (Transformer._call_userfunc self) t = Transformer.transform self t)
    by now inversion Hrep.
  assert (Ht' : reduce (traced (Transformer._call_userfunc self)) t
                = Traversal.transform (traced (Transformer._call_userfunc self)) t)
    by now inversion Hrep.
  rewrite Ht in Hcopy, Htr, Hip, Hset. rewrite Ht' in Htr.
  exists st', calls. repeat split; assumption.
Qed.

Lemma in_place_recursive_agrees_with_copy_witness :
  represents Examples.small_objects (Objects.Ref 0) Examples.small [1; 2; 0]
  /\ NoDup [1; 2; 0]
  /\ height Examples.small <= 2
  /\ exists (st' : Objects.store nat) calls,
       Transformer_InPlaceRecursive.transform Examples.counting 2 0
         (Examples.small_objects, [])
       = (Ok (PyInt 3), (st', []))
       /\ Forall2 (settled st') [1; 2; 0] calls
       /\ calls = [("item", [PyStr "x"], 1); ("item", [PyStr "y"], 2);
                   ("start", [Tree "item" [PyStr "x"] 1; PyStr ",";
                              Tree "item" [PyStr "y"] 2], 0)].
Proof.
  assert (Hrep : represents Examples.small_objects (Objects.Ref 0) Examples.small [1; 2; 0]).
  { apply (represents_node Examples.small_objects 0
             [Tree "item" [PyStr "x"] 1; PyStr ","; Tree "item" [PyStr "y"] 2]
             [[1]; []; [2]]).
    repeat constructor.
    - apply (represents_node Examples.small_objects 1 [PyStr "x"] [[]]).
      repeat constructor.
    - apply (represents_node Examples.small_objects 2 [PyStr "y"] [[]]).
      repeat constructor. }
  assert (Hnd : NoDup [1; 2; 0]) by (apply (bool_decide_eq_true_1 (NoDup [1; 2; 0])); reflexivity).
  assert (Hh : height Examples.small <= 2) by (cbn; lia).
  split; [exact Hrep|]. split; [exact Hnd|]. split; [exact Hh|].
  destruct (in_place_recursive_agrees_with_copy Examples.counting
              Examples.small_objects 0 Examples.small [1; 2; 0] 2 [] Hrep Hnd Hh)
    as (st' & calls & Htr & _ & Hip & _ & Hset).
  exists st', calls. split; [exact Hip|]. split; [exact (Hset I)|].
  cbn in Htr. now inversion Htr.
Defined.

(** ** Further properties of the transformers *)

Section traversal_more.
Context {Meta St : Type}.
Implicit Types (dispatch : string -> list (value Meta) -> Meta -> M St (value Meta)).

(** The walk depends on the dispatcher through its results only. *)
Lemma _transform_tree_ext dispatch1 dispatch2 :
  (forall data children meta s,
     dispatch1 data children meta s = dispatch2 data children meta s) ->
  forall (t : value Meta) s,
    Traversal._transform_tree dispatch1 t s = Traversal._transform_tree dispatch2 t s.
Proof.
  intros Hext t.
  induction t as [data children IH meta|str|z|items _|m|repr] using value_ind;
    intros s; try reflexivity.
  rewrite !_transform_tree_unfold. unfold bind.
  assert (Hcs : forall s, Traversal._transform_children dispatch1 children s
                          = Traversal._transform_children dispatch2 children s).
  { clear s. induction IH as [|c Hc cs _ IHcs]; intros s; [reflexivity|].
    rewrite !_transform_children_cons. unfold reduce.
    destruct (isinstance_Tree c).
    - rewrite Hc. destruct (Traversal._transform_tree dispatch2 c s) as [[v|e] s1].
      + unfold bind. now rewrite IHcs.
      + destruct e; try reflexivity. apply IHcs.
    - cbn. unfold bind. now rewrite IHcs. }
  rewrite Hcs.
  destruct (Traversal._transform_children dispatch2 children s) as [[vs|e] s1];
    [apply Hext|reflexivity].
Qed.

Lemma reduced_app dispatch pre post s vs1 s1 vs2 s2 :
  reduced dispatch pre s vs1 s1 ->
  reduced dispatch post s1 vs2 s2 ->
  reduced dispatch (pre ++ post) s (vs1 ++ vs2) s2.
Proof.
  induction 1 as [s|c cs s v s0 vs s' Hc _ IH|c cs s s0 vs s' Hc _ IH];
    intros Hpost; cbn.
  - exact Hpost.
  - eapply reduced_keep; eauto.
  - eapply reduced_drop; eauto.
Qed.

End traversal_more.

(** X1. [InlineTransformer] is the [Transformer] all of whose attributes
    carry [inline]: on every tree the two return the same result and leave
    the same state, whatever flags the handlers had. *)
Theorem inline_transformer_is_inlined_transformer {Meta St : Type}
    (self : holder Meta St) (t : value Meta) (s : St) :
  InlineTransformer.transform self t s
  = Transformer.transform (Wrapper true false <$> self) t s.
Proof.
  apply _transform_tree_ext. clear t s. intros data children meta s.
  unfold InlineTransformer._call_userfunc, Transformer._call_userfunc,
    Transformer.call___default__.
  rewrite !lookup_fmap.
  destruct (self !! data) as [f|]; [reflexivity|]. cbn.
  now destruct (self !! "__default__").
Qed.



(** X3. [transform] raises [Discard] only when the dispatch on the root
    itself does: a [Discard] from below never comes out. *)
Theorem transform_discard_is_from_root {Meta St : Type} (self : holder Meta St)
    (data : string) (children : list (value Meta)) (meta : Meta) (s s' : St) :
  Transformer.transform self (Tree data children meta) s = (Raise Discard, s') ->
  exists vs s1,
    reduced (Transformer._call_userfunc self) children s vs s1
    /\ Transformer._call_userfunc self data vs meta s1 = (Raise Discard, s').
Proof.
  unfold Transformer.transform, Transformer._transform_tree.
  rewrite _transform_tree_unfold. unfold bind.
  destruct (Traversal._transform_children (Transformer._call_userfunc self) children s)
    as [[vs|e] s1] eqn:Hcs; intros H.
  - exists vs, s1. split; [now apply reduced_complete|exact H].
  - inversion H; subst.
    now apply _transform_children_never_Discard in Hcs.
Qed.

Lemma transform_discard_is_from_root_witness :
  Transformer.transform Examples.pruning (Tree "C" [Tree "C" [] 1] 0) []
  = (Raise Discard, ["C"; "C"])
  /\ exists vs s1,
       reduced (Transformer._call_userfunc Examples.pruning) [Tree "C" [] 1] [] vs s1
       /\ Transformer._call_userfunc Examples.pruning "C" vs 0 s1
          = (Raise Discard, ["C"; "C"]).
Proof.
  assert (H : Transformer.transform Examples.pruning (Tree "C" [Tree "C" [] 1] 0) []
              = (Raise Discard, ["C"; "C"])) by reflexivity.
  split; [exact H|].
  exact (transform_discard_is_from_root Examples.pruning "C" _ 0 [] _ H).
Defined.

(** ** Further properties of chains *)

Section chain_more.
Context {Meta St : Type}.
Implicit Types (t : transformer Meta St) (ts : list (transformer Meta St)).

Lemma chain_transform_concat ts us : forall tree s,
  TransformerChain.transform (Chain (ts ++ us)) tree s
  = (let! x := TransformerChain.transform (Chain ts) tree in
     TransformerChain.transform (Chain us) x) s.
Proof.
  induction ts as [|t ts IH]; intros tree s.
  - reflexivity.
  - cbn [app]. rewrite !chain_transform_cons, bind_assoc_at.
    apply bind_ext_at. intros a s1. apply IH.
Qed.

(** Whatever the two operands are, [a * b] runs [a], then [b] on its
    result. *)
Lemma mul_transform (a b : transformer Meta St) tree s :
  TransformerChain.transform (TransformerChain.__mul__ a b) tree s
  = (let! x := TransformerChain.transform a tree in TransformerChain.transform b x) s.
Proof.
  destruct a as [self|ts]; cbn [TransformerChain.__mul__].
  - rewrite chain_transform_cons. apply bind_ext_at. intros x s1.
    rewrite chain_transform_cons. apply bind_ret_at.
  - apply chain_transform_app.
Qed.
End chain_more.

(** X4. Composition with [*] is associative in what it computes, and the
    empty chain is its unit: [(a * b) * c] and [a * (b * c)] transform every
    tree alike, although the second nests a chain in a chain, and a chain of
    no stage returns its input as it is, tree or not. *)
Theorem chain_mul_associative {Meta St : Type} (a b c : transformer Meta St)
    (tree : value Meta) (s : St) :
  TransformerChain.transform
    (TransformerChain.__mul__ (TransformerChain.__mul__ a b) c) tree s
  = TransformerChain.transform
      (TransformerChain.__mul__ a (TransformerChain.__mul__ b c)) tree s
  /\ TransformerChain.transform (Chain []) tree s = (Ok tree, s)
  /\ TransformerChain.transform (TransformerChain.__mul__ (Chain []) a) tree s
     = TransformerChain.transform a tree s
  /\ TransformerChain.transform (TransformerChain.__mul__ a (Chain [])) tree s
     = TransformerChain.transform a tree s.
Proof.
  split; [|split; [reflexivity|split]].
  - rewrite !mul_transform. unfold bind. rewrite mul_transform. unfold bind.
    destruct (TransformerChain.transform a tree s) as [[x|e] s1]; [|reflexivity].
    now rewrite mul_transform.
  - now rewrite mul_transform.
  - rewrite mul_transform. apply bind_ret_at.
Qed.

(** X5. A [Transformer] stage needs a tree: when the stage before it returns
    a value that is not a [Tree], the chain raises [AttributeError] from the
    state that stage left, and no handler of the later stage runs. *)
Theorem chain_stage_needs_tree {Meta St : Type} (t1 : transformer Meta St)
    (self2 : holder Meta St) (rest : list (transformer Meta St))
    (tree v : value Meta) (s s1 : St) :
  TransformerChain.transform t1 tree s = (Ok v, s1) ->
  isinstance_Tree v = false ->
  TransformerChain.transform (Chain (t1 :: Instance self2 :: rest)) tree s
  = (Raise AttributeError, s1).
Proof.
  intros H1 Hv. rewrite chain_transform_cons. unfold bind. rewrite H1.
  rewrite chain_transform_cons. unfold bind.
  cbn [TransformerChain.transform]. now destruct v.
Qed.

Lemma chain_stage_needs_tree_witness :
  TransformerChain.transform MoreExamples.stage_count Examples.small []
  = (Ok (PyInt 3), [])
  /\ isinstance_Tree (PyInt 3 : value nat) = false
  /\ TransformerChain.transform
       (Chain [MoreExamples.stage_count; MoreExamples.stage_plain]) Examples.small []
     = (Raise AttributeError, []).
Proof.
  assert (H : TransformerChain.transform MoreExamples.stage_count Examples.small []
              = (Ok (PyInt 3), [])) by reflexivity.
  split; [exact H|]. split; [reflexivity|].
  exact (chain_stage_needs_tree MoreExamples.stage_count Examples.plain []
           Examples.small (PyInt 3) [] [] H eq_refl).
Defined.

(** ** Further properties of the decorators *)

(** X6. For a function without shape attributes, the deprecated
    [inline_args], [visitor_args(inline=True)] and [InlineTransformer] come to
    the same dispatch: the function is called on the children one by one. *)
Theorem inline_args_is_visitor_args_inline {Meta St : Type}
    (f : callable Meta St) (self : holder Meta St) (data : string)
    (children : list (value Meta)) (meta : Meta) :
  getattr_inline f = false ->
  getattr_meta f = false ->
  exists g1 g2 dec,
    inline_args (Func f) = Ok (Func g1)
    /\ visitor_args true false = Ok dec
    /\ dec (Func f) = Ok (Func g2)
    /\ Transformer._call_userfunc (<[data := g1]> self) data children meta
       = call f children
    /\ Transformer._call_userfunc (<[data := g2]> self) data children meta
       = call f children
    /\ InlineTransformer._call_userfunc (<[data := f]> self) data children meta
       = call f children.
Proof.
  intros Hi Hm. do 3 eexists.
  split; [reflexivity|]. split; [reflexivity|]. split; [reflexivity|].
  unfold Transformer._call_userfunc, InlineTransformer._call_userfunc.
  rewrite !lookup_insert_eq. cbn. rewrite Hi, Hm. now repeat split.
Qed.

Lemma inline_args_is_visitor_args_inline_witness :
  getattr_inline MoreExamples.pair = false
  /\ getattr_meta MoreExamples.pair = false
  /\ exists g1,
       inline_args (Func MoreExamples.pair) = Ok (Func g1)
       /\ Transformer._call_userfunc (<["p" := g1]> Examples.plain) "p"
            [PyStr "x"; PyStr "y"] 0 []
          = (Ok (PyList [PyStr "y"; PyStr "x"]), ["pair"]).
Proof.
  split; [reflexivity|]. split; [reflexivity|].
  destruct (inline_args_is_visitor_args_inline MoreExamples.pair Examples.plain "p"
              [PyStr "x"; PyStr "y"] 0 eq_refl eq_refl)
    as (g1 & g2 & dec & H1 & _ & _ & Hcall & _).
  exists g1. split; [exact H1|].
  exact (f_equal (fun m : M (list string) (value nat) => m []) Hcall).
Defined.

(** X7. Decorating again replaces the shape: after [visitor_args] with one
    pair of flags and then with another, the handler carries the second pair
    and still calls the original function, so the dispatcher treats it as if
    it had been decorated once, with the second pair. *)
Theorem visitor_args_last_flags_win {Meta St : Type} (f : callable Meta St)
    (inline1 meta1 inline2 meta2 : bool) :
  inline1 && meta1 = false ->
  inline2 && meta2 = false ->
  exists dec1 dec2 g1 g2,
    visitor_args inline1 meta1 = Ok dec1
    /\ dec1 (Func f) = Ok (Func g1)
    /\ visitor_args inline2 meta2 = Ok dec2
    /\ dec2 (Func g1) = Ok (Func g2)
    /\ getattr_inline g2 = inline2
    /\ getattr_meta g2 = meta2
    /\ forall (self : holder Meta St) data children meta,
         Transformer._call_userfunc (<[data := g2]> self) data children meta
         = Transformer._call_userfunc (<[data := Wrapper inline2 meta2 f]> self)
             data children meta.
Proof.
  intros H1 H2. unfold visitor_args. rewrite H1, H2.
  do 4 eexists.
  split; [reflexivity|]. split; [cbn; unfold _visitor_args_func_dec; now rewrite H1|].
  split; [reflexivity|]. split; [cbn; unfold _visitor_args_func_dec; now rewrite H2|].
  split; [reflexivity|]. split; [reflexivity|].
  intros self data children meta. unfold Transformer._call_userfunc.
  rewrite !lookup_insert_eq. reflexivity.
Qed.

Lemma visitor_args_last_flags_win_witness :
  true && false = false
  /\ false && true = false
  /\ exists g2 : callable nat (list string),
       getattr_inline g2 = false /\ getattr_meta g2 = true
       /\ Transformer._call_userfunc (<["m" := g2]> Examples.plain) "m" [PyStr "x"] 7 []
          = (Ok (Tree "seen" [PyStr "x"] 7), []).
Proof.
  split; [reflexivity|]. split; [reflexivity|].
  destruct (visitor_args_last_flags_win Examples.with_meta true false false true
              eq_refl eq_refl)
    as (dec1 & dec2 & g1 & g2 & _ & _ & _ & _ & Hi & Hm & Hcall).
  exists g2. split; [exact Hi|]. split; [exact Hm|].
  exact (f_equal (fun m : M (list string) (value nat) => m [])
           (Hcall Examples.plain "m" [PyStr "x"] 7)).
Defined.

Section class_instances.
Context {Meta St : Type}.

Lemma attributes_of_lookup (cls : pyclass Meta St) name :
  attributes_of cls !! name = Inspect.getattr cls name.
Proof.
  unfold attributes_of, Inspect.getattr.
  induction (Inspect.getmro cls) as [|c mro IH]; cbn; [apply lookup_empty|].
  rewrite lookup_union, IH.
  now destruct (Inspect.class_dict c !! name), (foldr _ None mro).
Qed.
End class_instances.

(** X8. From the class to the call: after [visitor_args] with at most one
    flag has decorated a class, an instance dispatches a public method the
    class body defines under a new name with the shape asked for, and
    dispatches a method found under a name of a base class as it did
    before. *)
Theorem class_decoration_reaches_dispatch {Meta St : Type} (cls : pyclass Meta St)
    (inline meta : bool) (name : string) (f : callable Meta St) :
  inline && meta = false ->
  Inspect.class_dict cls !! name = Some f ->
  startswith_underscore name = false ->
  name ∉ inherited_names cls ->
  exists dec cls',
    visitor_args inline meta = Ok dec
    /\ dec (Cls cls) = Ok (Cls cls')
    /\ (forall children m,
          Transformer._call_userfunc (attributes_of cls') name children m
          = call f (if meta then [PyList children; PyMeta m]
                    else if inline then children
                    else [PyList children]))
    /\ (forall other g children m,
          other ∈ inherited_names cls ->
          attributes_of cls !! other = Some g ->
          Transformer._call_userfunc (attributes_of cls') other children m
          = Transformer._call_userfunc (attributes_of cls) other children m).
Proof.
  intros Hflags Hf Hpublic Hnew.
  destruct (_apply_decorator_total
              (fun f => _visitor_args_func_dec f inline meta)
              (Wrapper inline meta) cls) as (dict' & Hrun & Hdict).
  { intros g. unfold _visitor_args_func_dec. now rewrite Hflags. }
  unfold visitor_args. rewrite Hflags. do 2 eexists.
  split; [reflexivity|]. cbn [_apply_decorator]. rewrite Hrun.
  split; [reflexivity|].
  assert (Hattr : forall n,
            attributes_of (Class dict' (tail (Inspect.getmro cls))) !! n
            = match dict' !! n with
              | Some v => Some v
              | None => match Inspect.class_dict cls !! n with
                        | Some _ => None
                        | None => attributes_of cls !! n
                        end
              end).
  { intros n. rewrite !attributes_of_lookup. destruct cls as [dict bases].
    unfold Inspect.getattr. cbn.
    destruct (dict' !! n) eqn:Hn'; [reflexivity|].
    destruct (dict !! n) eqn:Hn; [|reflexivity].
    specialize (Hdict n). cbn in Hdict. rewrite Hn, Hn' in Hdict.
    destruct (startswith_underscore n || _) in Hdict; discriminate. }
  split.
  - intros children m. unfold Transformer._call_userfunc.
    rewrite Hattr, Hdict, Hf, Hpublic, (bool_decide_eq_false_2 _ Hnew). cbn.
    now destruct meta, inline.
  - intros other g children m Hother Hg. unfold Transformer._call_userfunc.
    assert (Hsame : attributes_of (Class dict' (tail (Inspect.getmro cls))) !! other
                    = attributes_of cls !! other).
    { rewrite Hattr, Hdict, (bool_decide_eq_true_2 _ Hother), orb_true_r.
      destruct (Inspect.class_dict cls !! other) eqn:Ho; [|reflexivity].
      rewrite attributes_of_lookup. destruct cls as [dict bases].
      unfold Inspect.getattr. cbn in Ho |- *. now rewrite Ho. }
    now rewrite Hsame, Hg.
Qed.

Lemma class_decoration_reaches_dispatch_witness :
  true && false = false
  /\ Inspect.class_dict Examples.Sub !! "atom" = Some (Examples.method "Sub.atom")
  /\ startswith_underscore "atom" = false
  /\ ("atom" ∉ inherited_names Examples.Sub)
  /\ exists dec cls',
       visitor_args true false = Ok dec
       /\ dec (Cls Examples.Sub) = Ok (Cls cls')
       /\ Transformer._call_userfunc (attributes_of cls') "atom" [PyStr "x"] 0 tt
          = (Ok (PyStr "Sub.atom"), tt).
Proof.
  assert (Hnew : "atom" ∉ inherited_names Examples.Sub)
    by (apply (bool_decide_eq_false_1 ("atom" ∈ inherited_names Examples.Sub));
        vm_compute; reflexivity).
  split; [reflexivity|]. split; [reflexivity|]. split; [reflexivity|].
  split; [exact Hnew|].
  destruct (class_decoration_reaches_dispatch Examples.Sub true false "atom"
              (Examples.method "Sub.atom") eq_refl eq_refl eq_refl Hnew)
    as (dec & cls' & Hdec & Hrun & Hcall & _).
  exists dec, cls'. split; [exact Hdec|]. split; [exact Hrun|].
  exact (f_equal (fun m : M unit (value nat) => m tt) (Hcall [PyStr "x"] 0)).
Defined.

(** ** Further properties of the interpreter *)

(** X9. A method decorated with [visit_children_decor] is called after the
    children have been visited, on the list [visit_children] returns: each
    leaf as it is, each node replaced by the result of its visit; if a visit
    raises, the method is not called. *)
Theorem visit_children_decor_visits_first {Meta St : Type}
    (methods : gmap string (Interpreter.method Meta St)) (depth : nat)
    (func : Interpreter.method Meta St)
    (data : string) (children : list (value Meta)) (meta : Meta) (s : St) :
  methods !! "visit" = None ->
  methods !! "visit_children" = None ->
  methods !! data = Some (visit_children_decor func) ->
  Interpreter.send methods (S (S (S depth))) "visit" (Tree data children meta) s
  = match Interpreter.comprehension (Interpreter.send methods depth "visit") children s with
    | (Ok vs, s1) => func (Interpreter.send methods (S depth)) (PyList vs) s1
    | (Raise e, s1) => (Raise e, s1)
    end.
Proof.
  intros Hvisit Hchildren Hdata.
  rewrite (send_library methods (S (S depth)) "visit" Interpreter.visit Hvisit eq_refl).
  cbn [Interpreter.visit].
  rewrite (send_handler methods (S depth) data _ Hdata).
  unfold visit_children_decor at 1. unfold bind at 1.
  rewrite (send_library methods depth "visit_children"
             Interpreter.visit_children Hchildren eq_refl).
  cbn [Interpreter.visit_children]. unfold bind.
  now destruct (Interpreter.comprehension (Interpreter.send methods depth "visit")
                  children s) as [[vs|e] s1].
Qed.

Lemma visit_children_decor_visits_first_witness :
  MoreExamples.summing !! "visit" = None
  /\ MoreExamples.summing !! "visit_children" = None
  /\ MoreExamples.summing !! "sum" = Some (visit_children_decor MoreExamples.total)
  /\ Interpreter.send MoreExamples.summing 5 "visit" MoreExamples.ones []
     = (Ok (PyInt 7), ["one"; "one"; "total"]).
Proof.
  split; [reflexivity|]. split; [reflexivity|]. split; [reflexivity|].
  exact (visit_children_decor_visits_first MoreExamples.summing 2 MoreExamples.total
           "sum" _ 0 [] eq_refl eq_refl eq_refl).
Defined.

(** X10. The interpreter catches nothing: when the visit of a child raises,
    [Discard] included, [visit_children] raises the same from the state then
    reached, and the children after it are not visited. *)
Theorem visit_children_propagates {Meta St : Type}
    (self : string -> value Meta -> M St (value Meta))
    (data : string) (pre : list (value Meta)) (c : value Meta)
    (post : list (value Meta)) (meta : Meta)
    (s : St) (vs : list (value Meta)) (s1 : St) (e : exn) (s2 : St) :
  visited (self "visit") pre s vs s1 ->
  isinstance_Tree c = true ->
  self "visit" c s1 = (Raise e, s2) ->
  Interpreter.visit_children self (Tree data (pre ++ c :: post) meta) s = (Raise e, s2).
Proof.
  intros Hpre Hc He. cbn [Interpreter.visit_children]. unfold bind.
  assert (H : Interpreter.comprehension (self "visit") (pre ++ c :: post) s
              = (Raise e, s2)).
  { induction Hpre as [s|c0 cs s vs s' Hc0 _ IH|c0 cs s v s0 vs s' Hc0 Hv _ IH];
      cbn [app Interpreter.comprehension]; unfold bind.
    - now rewrite Hc, He.
    - rewrite Hc0. cbn. now rewrite (IH He).
    - rewrite Hc0, Hv. now rewrite (IH He). }
  now rewrite H.
Qed.

Lemma visit_children_propagates_witness :
  visited (Interpreter.send MoreExamples.dropping 6 "visit") [Tree "one" [] 1] []
    [PyInt 1] ["one"]
  /\ isinstance_Tree (Tree "drop" [] 2 : value nat) = true
  /\ Interpreter.send MoreExamples.dropping 6 "visit" (Tree "drop" [] 2) ["one"]
     = (Raise Discard, ["one"; "drop"])
  /\ Interpreter.visit_children (Interpreter.send MoreExamples.dropping 6)
       (Tree "top" [Tree "one" [] 1; Tree "drop" [] 2; Tree "one" [] 3] 0) []
     = (Raise Discard, ["one"; "drop"]).
Proof.
  assert (H1 : visited (Interpreter.send MoreExamples.dropping 6 "visit")
                 [Tree "one" [] 1] [] [PyInt 1] ["one"]).
  { eapply visited_node; [reflexivity|reflexivity|apply visited_nil]. }
  assert (H2 : Interpreter.send MoreExamples.dropping 6 "visit" (Tree "drop" [] 2) ["one"]
               = (Raise Discard, ["one"; "drop"])) by reflexivity.
  split; [exact H1|]. split; [reflexivity|]. split; [exact H2|].
  exact (visit_children_propagates (Interpreter.send MoreExamples.dropping 6) "top"
           _ (Tree "drop" [] 2) [Tree "one" [] 3] 0 _ _ _ _ _ H1 eq_refl H2).
Defined.

(** ** The visitors *)

Section visitor_facts.
Context {Meta St : Type}.
Implicit Types (self : holder Meta St).

Lemma visit_loop_app self (l1 l2 : list (value Meta)) s :
  Visitor.visit_loop self (l1 ++ l2) s
  = (let! _ := Visitor.visit_loop self l1 in Visitor.visit_loop self l2) s.
Proof.
  revert s. induction l1 as [|x l1 IH]; intros s; [reflexivity|].
  cbn [app Visitor.visit_loop]. unfold bind.
  destruct (VisitorBase._call_userfunc self x s) as [[v|e] s1]; [|reflexivity].
  rewrite IH. reflexivity.
Qed.

Lemma visitor_recursive_unfold self data children meta :
  Visitor_Recursive.visit self (Tree data children meta)
  = (let! _ := Visitor_Recursive.visit_children_loop self children in
     match self !! "__default__" with
     | Some d =>
         let! _ := call (default d (self !! data)) [Tree data children meta] in
         ret (Tree data children meta)
     | None => raise AttributeError
     end).
Proof. reflexivity. Qed.

Lemma visitor_recursive_as_loop self (t : value Meta) :
  isinstance_Tree t = true ->
  forall s,
    Visitor_Recursive.visit self t s
    = (let! _ := Visitor.visit_loop self (subtrees t) in ret t) s.
Proof.
  induction t as [data children IH meta|str|z|items _|m|repr] using value_ind;
    intros Ht s; try discriminate.
  rewrite visitor_recursive_unfold. cbn [subtrees].
  assert (Hcs : forall s,
            Visitor_Recursive.visit_children_loop self children s
            = Visitor.visit_loop self (flat_map subtrees children) s).
  { clear s Ht. induction IH as [|c Hc cs _ IHcs]; intros s; [reflexivity|].
    cbn [flat_map]. rewrite visit_loop_app.
    change (Visitor_Recursive.visit_children_loop self (c :: cs) s)
      with ((let! _ := (if isinstance_Tree c then Visitor_Recursive.visit self c
                        else ret c) in
             Visitor_Recursive.visit_children_loop self cs) s).
    unfold bind. destruct (isinstance_Tree c) eqn:Hic.
    - rewrite (Hc eq_refl). unfold bind.
      destruct (Visitor.visit_loop self (subtrees c) s) as [[u|e] s1];
        [cbn; apply IHcs|reflexivity].
    - assert (subtrees c = []) as -> by now destruct c.
      cbn. apply IHcs. }
  unfold bind. rewrite Hcs, visit_loop_app. unfold bind.
  destruct (Visitor.visit_loop self (flat_map subtrees children) s)
    as [[u|e] s1]; [|reflexivity].
  cbn [Visitor.visit_loop VisitorBase._call_userfunc]. unfold bind.
  destruct (self !! "__default__") as [d|]; [|reflexivity].
  now destruct (call (default d (self !! data)) [Tree data children meta] s1)
    as [[v|e] s2].
Qed.
End visitor_facts.

(** X11. With the sub-nodes enumerated children first, from left to right,
    [Visitor.visit] and [Visitor_Recursive.visit] do the same: the same
    handlers are called in the same order, from the same states, and both
    return the tree they were given, whatever the handlers return. *)
Theorem visitor_recursive_is_visitor {Meta St : Type} (self : holder Meta St)
    (t : value Meta) (s : St) :
  Visitor_Recursive.visit self t s = Visitor.visit subtrees self t s
  /\ (forall v s', Visitor_Recursive.visit self t s = (Ok v, s') -> v = t).
Proof.
  assert (H : Visitor_Recursive.visit self t s = Visitor.visit subtrees self t s).
  { destruct t as [data children meta|str|z|items|m|repr]; try reflexivity.
    now rewrite visitor_recursive_as_loop. }
  split; [exact H|]. intros v s' Hv. rewrite H in Hv.
  destruct t as [data children meta|str|z|items|m|repr]; try discriminate.
  cbn [Visitor.visit] in Hv. unfold bind in Hv.
  destruct (Visitor.visit_loop self (subtrees (Tree data children meta)) s)
    as [[u|e] s1]; [|discriminate].
  now inversion Hv.
Qed.

(** ** Further properties of the walk and of class decoration *)

(** X12. Leaves are never dispatched: on a node all of whose children are
    leaves, [transform] is one call of the dispatcher, on the children as
    they are, from the state it was given. *)
Theorem transform_passes_leaves {Meta St : Type} (self : holder Meta St)
    (data : string) (children : list (value Meta)) (meta : Meta) (s : St) :
  Forall (fun c => isinstance_Tree c = false) children ->
  Transformer.transform self (Tree data children meta) s
  = Transformer._call_userfunc self data children meta s.
Proof.
  intros Hleaves.
  assert (Hcs : Traversal._transform_children (Transformer._call_userfunc self) children s
                = (Ok children, s)).
  { induction Hleaves as [|c cs Hc _ IH]; [reflexivity|].
    rewrite _transform_children_cons. unfold reduce. rewrite Hc. cbn.
    unfold bind. now rewrite IH. }
  unfold Transformer.transform, Transformer._transform_tree.
  rewrite _transform_tree_unfold. unfold bind. now rewrite Hcs.
Qed.

Lemma transform_passes_leaves_witness :
  Forall (fun c : value nat => isinstance_Tree c = false) [PyStr "x"; PyStr "y"]
  /\ Transformer.transform Examples.shapes (Tree "i" [PyStr "x"; PyStr "y"] 0) []
     = (Ok (PyList [PyStr "y"; PyStr "x"]), []).
Proof.
  assert (H : Forall (fun c : value nat => isinstance_Tree c = false)
                [PyStr "x"; PyStr "y"]) by (repeat constructor).
  split; [exact H|].
  exact (transform_passes_leaves Examples.shapes "i" _ 0 [] H).
Defined.

(** X13. Decorating the same class twice wraps twice: the members wrapped
    the first time are defined by the class under names no base class has,
    so the second pass takes them again; the other members are left alone
    both times. *)
Theorem decorating_twice_wraps_twice {Meta St : Type} (cls : pyclass Meta St)
    (decorator : callable Meta St -> result (callable Meta St))
    (d : callable Meta St -> callable Meta St) :
  (forall f, decorator f = Ok (d f)) ->
  exists cls1 cls2,
    Transformer._apply_decorator decorator cls = (Ok cls1, cls1)
    /\ Transformer._apply_decorator decorator cls1 = (Ok cls2, cls2)
    /\ forall name,
         Inspect.class_dict cls2 !! name
         = match Inspect.class_dict cls !! name with
           | Some v =>
               if startswith_underscore name
                  || bool_decide (name ∈ inherited_names cls)
               then Some v
               else Some (d (d v))
           | None => None
           end.
Proof.
  intros Hd.
  destruct (_apply_decorator_total decorator d cls Hd) as (dict1 & Hrun1 & Hdict1).
  destruct (_apply_decorator_total decorator d
              (Class dict1 (tail (Inspect.getmro cls))) Hd)
    as (dict2 & Hrun2 & Hdict2).
  do 2 eexists. split; [exact Hrun1|]. split; [exact Hrun2|].
  intros name. cbn [Inspect.class_dict] in *. rewrite Hdict2, Hdict1.
  assert (Hinh : inherited_names (Class dict1 (tail (Inspect.getmro cls)))
                 = inherited_names cls) by now destruct cls.
  rewrite Hinh.
  destruct (Inspect.class_dict cls !! name) as [v|]; [|reflexivity].
  now destruct (startswith_underscore name || bool_decide (name ∈ inherited_names cls)).
Qed.

Lemma decorating_twice_wraps_twice_witness :
  (forall f, Examples.inline_dec f = Ok (Wrapper true false f))
  /\ exists cls1 cls2,
       Transformer._apply_decorator Examples.inline_dec Examples.Sub = (Ok cls1, cls1)
       /\ Transformer._apply_decorator Examples.inline_dec cls1 = (Ok cls2, cls2)
       /\ Inspect.class_dict cls2 !! "atom"
          = Some (Wrapper true false (Wrapper true false (Examples.method "Sub.atom"))).
Proof.
  assert (H : forall f, Examples.inline_dec f = Ok (Wrapper true false f))
    by reflexivity.
  split; [exact H|].
  destruct (decorating_twice_wraps_twice Examples.Sub Examples.inline_dec
              (Wrapper true false) H) as (cls1 & cls2 & H1 & H2 & Hdict).
  exists cls1, cls2. split; [exact H1|]. split; [exact H2|].
  rewrite Hdict. reflexivity.
Defined.

(** ** Further properties of the in-place transformers *)

Section in_place_more.
Context {Meta St : Type}.
Variable self : holder Meta St.
Import Objects.
Implicit Types (st : store Meta) (c : child Meta) (t : value Meta) (fp : list loc).

Lemma represents_children_spec st depth slots (cs : list (value Meta))
    (fps : list (list loc)) :
  Forall3 (represents st) slots cs fps ->
  Forall (fun t => height t <= depth) cs ->
  Forall3 (in_place_spec self st depth) slots cs fps.
Proof.
  induction 1 as [|c t fp slots cs fps Hc _ IH]; intros Hh; constructor.
  - apply in_place_reduce; [exact Hc|]. now apply Forall_cons in Hh as [? _].
  - apply IH. now apply Forall_cons in Hh as [_ ?].
Qed.
End in_place_more.

(** X14. No rollback, and no half assignment: when the reduction of the
    children raises, [Transformer_InPlaceRecursive.transform] raises the same
    from the same state, and the root object still has the fields it had;
    objects outside the tree are untouched. *)
Theorem in_place_failure_keeps_root {Meta St : Type} (self : holder Meta St)
    (st : Objects.store Meta) (l : Objects.loc)
    (data : string) (children : list (value Meta)) (meta : Meta)
    (fp : list Objects.loc) (depth : nat) (s : St) (e : exn) (s1 : St) :
  represents st (Objects.Ref l) (Tree data children meta) fp ->
  NoDup fp ->
  height (Tree data children meta) <= depth ->
  Transformer._transform_children self children s = (Raise e, s1) ->
  exists st' : Objects.store Meta,
    Transformer_InPlaceRecursive.transform self depth l (st, s) = (Raise e, (st', s1))
    /\ st' l = st l
    /\ (forall l', l' ∉ fp -> st' l' = st l').
Proof.
  intros Hrep Hnd Hh Hfail.
  inversion Hrep as [|l0 cs fps Hcs Hl Ht Hfp]; subst.
  destruct depth as [|depth]; [cbn in Hh; lia|].
  cbn [height] in Hh. apply le_S_n, height_children in Hh.
  apply NoDup_app in Hnd as (Hnd1 & Hdisj & _).
  destruct (in_place_children self st depth _ children fps
              (represents_children_spec self st depth _ _ _ Hcs Hh)
              st s [] (fun _ _ => eq_refl) Hnd1)
    as (st2 & calls & _ & Hip & Hframe & _).
  unfold Transformer._transform_children in Hfail.
  rewrite Hfail in Hip. cbn [fst snd] in Hip.
  exists st2. split; [|split].
  - unfold Transformer_InPlaceRecursive.transform. rewrite ip_transform_tree_S.
    unfold bind, Objects.get_object. cbn [fst snd]. now rewrite Hip.
  - apply Hframe. intros Hin. apply (Hdisj l Hin). now left.
  - intros l' Hl'. apply Hframe. intros Hin. apply Hl', elem_of_app. now left.
Qed.

Lemma in_place_failure_keeps_root_witness :
  represents Examples.small_objects (Objects.Ref 0) Examples.small [1; 2; 0]
  /\ NoDup [1; 2; 0]
  /\ height Examples.small <= 2
  /\ Transformer._transform_children
       (<["item" := MoreExamples.failing "item"]> Examples.plain)
       [Tree "item" [PyStr "x"] 1; PyStr ","; Tree "item" [PyStr "y"] 2] []
     = (Raise ValueError, ["item"])
  /\ exists st' : Objects.store nat,
       Transformer_InPlaceRecursive.transform
         (<["item" := MoreExamples.failing "item"]> Examples.plain) 2 0
         (Examples.small_objects, [])
       = (Raise ValueError, (st', ["item"]))
       /\ st' 0 = Examples.small_objects 0.
Proof.
  assert (Hrep : represents Examples.small_objects (Objects.Ref 0) Examples.small [1; 2; 0]).
  { apply (represents_node Examples.small_objects 0
             [Tree "item" [PyStr "x"] 1; PyStr ","; Tree "item" [PyStr "y"] 2]
             [[1]; []; [2]]).
    repeat constructor.
    - apply (represents_node Examples.small_objects 1 [PyStr "x"] [[]]).
      repeat constructor.
    - apply (represents_node Examples.small_objects 2 [PyStr "y"] [[]]).
      repeat constructor. }
  assert (Hnd : NoDup [1; 2; 0])
    by (apply (bool_decide_eq_true_1 (NoDup [1; 2; 0])); reflexivity).
  assert (Hh : height Examples.small <= 2) by (cbn; lia).
  assert (Hfail : Transformer._transform_children
                    (<["item" := MoreExamples.failing "item"]> Examples.plain)
                    [Tree "item" [PyStr "x"] 1; PyStr ","; Tree "item" [PyStr "y"] 2] []
                  = (Raise ValueError, ["item"])) by reflexivity.
  split; [exact Hrep|]. split; [exact Hnd|]. split; [exact Hh|]. split; [exact Hfail|].
  destruct (in_place_failure_keeps_root
              (<["item" := MoreExamples.failing "item"]> Examples.plain)
              Examples.small_objects 0 "start" _ 0 [1; 2; 0] 2 [] ValueError ["item"]
              Hrep Hnd Hh Hfail) as (st' & Hrun & Hroot & _).
  exists st'. split; [exact Hrun|exact Hroot].
Defined.

Section shallow_in_place.
Context {Meta St : Type}.
Variable self : holder Meta St.
Import Objects.
Implicit Types (st : store Meta) (c : child Meta) (t : value Meta) (fp : list loc).

(** The handlers neither read nor write the state of the holder. *)
Variable g : string -> list (value Meta) -> Meta -> result (value Meta).
Hypothesis Hpure : forall data children meta s,
  Transformer._call_userfunc self data children meta s = (g data children meta, s).

Lemma pure_children_of (cs : list (value Meta)) :
  (forall t, t ∈ cs -> forall s s0,
     reduce (Transformer._call_userfunc self) t s
     = ((reduce (Transformer._call_userfunc self) t s0).1, s)) ->
  forall s s0,
    Traversal._transform_children (Transformer._call_userfunc self) cs s
    = ((Traversal._transform_children (Transformer._call_userfunc self) cs s0).1, s).
Proof.
  induction cs as [|c cs IH]; intros Hcs s s0; [reflexivity|].
  rewrite !_transform_children_cons, (Hcs c ltac:(left) s s0).
  assert (Hrest : forall s s0,
            Traversal._transform_children (Transformer._call_userfunc self) cs s
            = ((Traversal._transform_children
                  (Transformer._call_userfunc self) cs s0).1, s)).
  { apply IH. intros t Ht. apply Hcs. now right. }
  destruct (reduce (Transformer._call_userfunc self) c s0) as [[v|e] s1]; cbn [fst snd].
  - unfold bind. rewrite (Hrest s s1).
    now destruct (Traversal._transform_children (Transformer._call_userfunc self) cs s1)
      as [[vs|e] s2].
  - destruct e; try reflexivity. apply Hrest.
Qed.

Lemma pure_reduce t : forall s s0,
  reduce (Transformer._call_userfunc self) t s
  = ((reduce (Transformer._call_userfunc self) t s0).1, s).
Proof.
  induction t as [data children IH meta|str|z|items _|m|repr] using value_ind;
    intros s s0; try reflexivity.
  unfold reduce. cbn [isinstance_Tree]. rewrite !_transform_tree_unfold. unfold bind.
  rewrite (pure_children_of children) with (s := s) (s0 := s0).
  - destruct (Traversal._transform_children (Transformer._call_userfunc self) children s0)
      as [[vs|e] s1]; cbn [fst snd]; [|reflexivity].
    now rewrite !Hpure.
  - clear -IH. induction IH as [|c Hc cs _ IHcs]; intros t Ht.
    + now apply elem_of_nil in Ht.
    + apply elem_of_cons in Ht as [->|Ht]; [exact Hc|now apply IHcs].
Qed.

Lemma pure_children (cs : list (value Meta)) s s0 :
  Traversal._transform_children (Transformer._call_userfunc self) cs s
  = ((Traversal._transform_children (Transformer._call_userfunc self) cs s0).1, s).
Proof. apply pure_children_of. intros t _. apply pure_reduce. Qed.

(** When the children reduce, each of them ran to its end. *)
Lemma children_complete (cs : list (value Meta)) s : forall vs,
  (Traversal._transform_children (Transformer._call_userfunc self) cs s).1 = Ok vs ->
  Forall (fun t => completes (reduce (Transformer._call_userfunc self) t s).1) cs.
Proof.
  induction cs as [|c cs IH]; intros vs H; constructor.
  - rewrite _transform_children_cons in H.
    destruct (reduce (Transformer._call_userfunc self) c s) as [[v|e] s1]; cbn; [exact I|].
    destruct e; try discriminate H. reflexivity.
  - rewrite _transform_children_cons, (pure_reduce c s s) in H.
    destruct (reduce (Transformer._call_userfunc self) c s).1 as [v|e].
    + unfold bind in H.
      destruct (Traversal._transform_children (Transformer._call_userfunc self) cs s)
        as [[vs'|e] s2] eqn:Hr; [|discriminate H].
      now apply (IH vs').
    + destruct e; try discriminate H. now apply (IH vs).
Qed.

Lemma complete_children data (cs : list (value Meta)) meta s :
  completes (reduce (Transformer._call_userfunc self) (Tree data cs meta) s).1 ->
  exists vs,
    (Traversal._transform_children (Transformer._call_userfunc self) cs s).1 = Ok vs.
Proof.
  unfold reduce. cbn [isinstance_Tree]. rewrite _transform_tree_unfold. unfold bind.
  destruct (Traversal._transform_children (Transformer._call_userfunc self) cs s)
    as [[vs|e] s1] eqn:Hr; [eauto|].
  cbn. intros ->. now apply _transform_children_never_Discard in Hr.
Qed.

Lemma view_values depth st (vs : list (value Meta)) :
  map (Transformer_InPlace.view depth st) (map Val vs) = vs.
Proof.
  induction vs as [|v vs IH]; cbn [map]; [reflexivity|].
  rewrite IH. now destruct depth.
Qed.

Lemma represents_root st l t fp : represents st (Ref l) t fp -> l ∈ fp.
Proof. inversion 1; subst. apply elem_of_app. right. now left. Qed.

Lemma ready_transfer st st2 st3 s c t fp :
  represents st c t fp ->
  (forall l, l ∈ fp -> st3 l = st2 l) ->
  ready self st2 s c t -> ready self st3 s c t.
Proof.
  intros Hrep Hsame. destruct c as [l|v]; [|trivial].
  intros (data & children & meta & vs & Ht & Hvs & Hl).
  exists data, children, meta, vs. split; [exact Ht|]. split; [exact Hvs|].
  rewrite Hsame; [exact Hl|]. eapply represents_root, Hrep.
Qed.

(** Dispatching on a ready slot gives what the copying reduction gives. *)
Lemma ready_reduce st st2 depth s c t fp :
  represents st c t fp ->
  ready self st2 s c t ->
  Transformer_InPlace.reduce self depth c (st2, s)
  = ((reduce (Transformer._call_userfunc self) t s).1, (st2, s)).
Proof.
  intros Hrep Hready. destruct c as [l|v].
  - destruct Hready as (data & children & meta & vs & -> & Hvs & Hl).
    cbn [Transformer_InPlace.reduce]. unfold Transformer_InPlace._transform_tree.
    unfold bind, get_object, lift. cbn [fst snd]. rewrite Hl.
    cbn [obj_data obj_children obj_meta]. rewrite view_values, Hpure.
    unfold reduce. cbn [isinstance_Tree]. rewrite _transform_tree_unfold. unfold bind.
    unfold Transformer._transform_children in Hvs.
    rewrite (pure_children children s s), Hvs. now rewrite Hpure.
  - inversion Hrep as [v0 Hv|]; subst. unfold reduce. rewrite Hv.
    now destruct t.
Qed.

Lemma ready_children st st2 depth s slots (cs : list (value Meta)) (fps : list (list loc)) :
  Forall3 (represents st) slots cs fps ->
  Forall2 (ready self st2 s) slots cs ->
  Transformer_InPlace._transform_children self depth slots (st2, s)
  = ((Traversal._transform_children (Transformer._call_userfunc self) cs s).1, (st2, s)).
Proof.
  induction 1 as [|c t fp slots cs fps Hc _ IH]; intros Hready; [reflexivity|].
  apply Forall2_cons in Hready as [Hr Hrs].
  cbn [Transformer_InPlace._transform_children].
  rewrite (ready_reduce st st2 depth s c t fp Hc Hr).
  rewrite _transform_children_cons, (pure_reduce t s s).
  destruct (reduce (Transformer._call_userfunc self) t s).1 as [v|e]; cbn [fst snd].
  - unfold bind. rewrite (IH Hrs), (pure_children cs s s).
    now destruct (Traversal._transform_children (Transformer._call_userfunc self) cs s).1.
  - destruct e; try reflexivity. apply (IH Hrs).
Qed.

Lemma transform_loop_app depth (l1 l2 : list loc) σ :
  Transformer_InPlace.transform_loop self depth (l1 ++ l2) σ
  = (let! _ := Transformer_InPlace.transform_loop self depth l1 in
     Transformer_InPlace.transform_loop self depth l2) σ.
Proof.
  revert σ. induction l1 as [|l l1 IH]; intros σ; [reflexivity|].
  cbn [app Transformer_InPlace.transform_loop]. unfold bind, get_object.
  destruct (Transformer_InPlace._transform_children self depth
              (obj_children (σ.1 l)) σ) as [[vs|e] σ1]; [|reflexivity].
  cbn. apply IH.
Qed.

Lemma complete_children_reduce t s :
  completes (reduce (Transformer._call_userfunc self) t s).1 ->
  children_reduce self s t.
Proof.
  destruct t as [data children meta|str|z|items|m|repr]; try exact (fun _ => I).
  apply complete_children.
Qed.

Lemma sweep_children st depth s slots (cs : list (value Meta)) (fps : list (list loc)) :
  Forall3 (fun c t fp => represents st c t fp /\ sweep_spec self st depth s c t fp)
          slots cs fps ->
  Forall (fun t => completes (reduce (Transformer._call_userfunc self) t s).1) cs ->
  forall st1 : store Meta,
    (forall l, l ∈ List.concat fps -> st1 l = st l) -> NoDup (List.concat fps) ->
    exists st2 : store Meta,
      Transformer_InPlace.transform_loop self depth (List.concat fps) (st1, s)
      = (Ok tt, (st2, s))
      /\ (forall l, l ∉ List.concat fps -> st2 l = st1 l)
      /\ Forall2 (ready self st2 s) slots cs.
Proof.
  induction 1 as [|c t fp slots cs fps [Hrep Hc] _ IH]; intros Hok st1 Hagree Hnd.
  - exists st1. repeat split; constructor.
  - apply Forall_cons in Hok as [Hok1 Hoks].
    cbn [List.concat] in Hagree, Hnd |- *.
    apply NoDup_app in Hnd as (Hnd1 & Hdisj & Hnd2).
    destruct (Hc st1) as (st2 & Hrun1 & Hframe1 & Hready1);
      [intros l Hl; apply Hagree, elem_of_app; now left|exact Hnd1
      |now apply complete_children_reduce|].
    destruct (IH Hoks st2) as (st3 & Hrun2 & Hframe2 & Hready2);
      [|exact Hnd2|].
    { intros l Hl. rewrite Hframe1.
      - apply Hagree, elem_of_app. now right.
      - intros Hl1. exact (Hdisj l Hl1 Hl). }
    exists st3. rewrite transform_loop_app. unfold bind. rewrite Hrun1.
    split; [exact Hrun2|]. split.
    + intros l Hl. apply not_elem_of_app in Hl as [Hl1 Hl2].
      now rewrite Hframe2, Hframe1.
    + constructor; [|exact Hready2].
      apply (ready_transfer st st2 st3 s c t fp Hrep); [|exact Hready1].
      intros l Hl. apply Hframe2. intros Hl2. exact (Hdisj l Hl Hl2).
Qed.

Lemma sweep st depth s c t fp :
  represents st c t fp -> sweep_spec self st depth s c t fp.
Proof.
  induction 1 as [v Hv|l children fps Hrep IH]; intros st1 Hagree Hnd Hok.
  - exists st1. repeat split.
  - apply Forall3_all_Forall3 in IH.
    destruct Hok as [vs Hvs]. unfold Transformer._transform_children in Hvs.
    apply NoDup_app in Hnd as (Hnd1 & Hdisj & _).
    destruct (sweep_children st depth s _ children fps IH
                (children_complete children s vs Hvs) st1)
      as (st2 & Hrun & Hframe & Hready); [|exact Hnd1|].
    { intros l' Hl'. apply Hagree, elem_of_app. now left. }
    assert (Hst2 : st2 l = st l).
    { rewrite Hframe.
      - apply Hagree, elem_of_app. right. now left.
      - intros Hin. apply (Hdisj l Hin). now left. }
    exists (fun l' => if decide (l' = l)
                      then New_tree (obj_data (st2 l')) (map Val vs) (obj_meta (st2 l'))
                      else st2 l').
    split; [|split].
    + rewrite transform_loop_app. unfold bind at 1. rewrite Hrun.
      cbn [Transformer_InPlace.transform_loop]. unfold bind, get_object. cbn [fst snd].
      rewrite Hst2, (ready_children st st2 depth s _ children fps Hrep Hready), Hvs.
      reflexivity.
    + intros l' Hl'. apply not_elem_of_app in Hl' as [Hl1 Hl2].
      rewrite decide_False; [now apply Hframe|].
      intros ->. apply Hl2. now left.
    + exists (obj_data (st l)), children, (obj_meta (st l)), vs.
      split; [reflexivity|]. split; [exact Hvs|].
      rewrite decide_True by reflexivity. now rewrite Hst2.
Qed.
End shallow_in_place.

(** X15. With handlers that neither read nor write the state of the holder,
    on a tree held as objects, none shared, enumerated children first, and
    whose children reduce, [Transformer_InPlace.transform] returns what
    [Transformer.transform] returns, leaves the root with the reduced children
    as its children, and touches no object outside the tree. *)
Theorem shallow_in_place_agrees_for_pure_handlers {Meta St : Type}
    (self : holder Meta St)
    (g : string -> list (value Meta) -> Meta -> result (value Meta))
    (st : Objects.store Meta) (l : Objects.loc)
    (data : string) (children : list (value Meta)) (meta : Meta)
    (fp : list Objects.loc) (depth : nat) (s : St) (vs : list (value Meta)) :
  (forall data children meta s,
     Transformer._call_userfunc self data children meta s = (g data children meta, s)) ->
  represents st (Objects.Ref l) (Tree data children meta) fp ->
  NoDup fp ->
  (Transformer._transform_children self children s).1 = Ok vs ->
  exists st' : Objects.store Meta,
    Transformer_InPlace.transform self depth fp l (st, s) = (g data vs meta, (st', s))
    /\ Transformer.transform self (Tree data children meta) s = (g data vs meta, s)
    /\ st' l = Objects.New_tree data (map Objects.Val vs) meta
    /\ (forall l', l' ∉ fp -> st' l' = st l').
Proof.
  intros Hpure Hrep Hnd Hvs.
  destruct (sweep self g Hpure st depth s _ _ fp Hrep st (fun _ _ => eq_refl) Hnd)
    as (st' & Hrun & Hframe & Hready); [now exists vs|].
  assert (Hcopy : Transformer.transform self (Tree data children meta) s
                  = (g data vs meta, s)).
  { unfold Transformer.transform, Transformer._transform_tree.
    rewrite _transform_tree_unfold. unfold bind.
    unfold Transformer._transform_children in Hvs.
    rewrite (pure_children self g Hpure children s s), Hvs. apply Hpure. }
  exists st'. split; [|split; [exact Hcopy|split; [|exact Hframe]]].
  - unfold Transformer_InPlace.transform, bind. rewrite Hrun.
    change (Transformer_InPlace._transform_tree self depth l (st', s))
      with (Transformer_InPlace.reduce self depth (Objects.Ref l) (st', s)).
    rewrite (ready_reduce self g Hpure st st' depth s _ _ fp Hrep Hready).
    unfold reduce. cbn [isinstance_Tree].
    unfold Transformer.transform, Transformer._transform_tree in Hcopy.
    now rewrite Hcopy.
  - destruct Hready as (d & cs & m & vs' & Ht & Hvs' & Hl).
    inversion Ht; subst. rewrite Hvs in Hvs'. now inversion Hvs'; subst.
Qed.


Lemma shallow_in_place_agrees_for_pure_handlers_witness :
  (forall data children meta s,
     Transformer._call_userfunc MoreExamples.quiet data children meta s
     = (MoreExamples.quiet_dispatch data children meta, s))
  /\ represents Examples.small_objects (Objects.Ref 0) Examples.small [1; 2; 0]
  /\ NoDup [1; 2; 0]
  /\ (Transformer._transform_children MoreExamples.quiet
        [Tree "item" [PyStr "x"] 1; PyStr ","; Tree "item" [PyStr "y"] 2] tt).1
     = Ok [Tree "item" [PyStr "x"] 1; PyStr ","; Tree "item" [PyStr "y"] 2]
  /\ exists st' : Objects.store nat,
       Transformer_InPlace.transform MoreExamples.quiet 0 [1; 2; 0] 0
         (Examples.small_objects, tt)
       = (Ok (PyInt 3), (st', tt)).
Proof.
  assert (Hpure : forall data children meta s,
            Transformer._call_userfunc MoreExamples.quiet data children meta s
            = (MoreExamples.quiet_dispatch data children meta, s)).
  { intros data children meta []. unfold MoreExamples.quiet_dispatch.
    now destruct (Transformer._call_userfunc MoreExamples.quiet data children meta tt)
      as [r []]. }
  assert (Hrep : represents Examples.small_objects (Objects.Ref 0) Examples.small [1; 2; 0]).
  { apply (represents_node Examples.small_objects 0
             [Tree "item" [PyStr "x"] 1; PyStr ","; Tree "item" [PyStr "y"] 2]
             [[1]; []; [2]]).
    repeat constructor.
    - apply (represents_node Examples.small_objects 1 [PyStr "x"] [[]]).
      repeat constructor.
    - apply (represents_node Examples.small_objects 2 [PyStr "y"] [[]]).
      repeat constructor. }
  assert (Hnd : NoDup [1; 2; 0])
    by (apply (bool_decide_eq_true_1 (NoDup [1; 2; 0])); reflexivity).
  split; [exact Hpure|]. split; [exact Hrep|]. split; [exact Hnd|].
  split; [reflexivity|].
  destruct (shallow_in_place_agrees_for_pure_handlers MoreExamples.quiet
              MoreExamples.quiet_dispatch Examples.small_objects 0 "start" _ 0
              [1; 2; 0] 0 tt _ Hpure Hrep Hnd eq_refl) as (st' & Hrun & _).
  exists st'. exact Hrun.
Defined.

(** The hypothesis on the handlers is needed: [Transformer_InPlace] calls
    the handlers of the children of a node when it comes to that node, so on
    A[B[D], C[E]] the handler of [E] runs before the one of [B]. *)
Lemma shallow_in_place_dispatch_order :
  (Transformer.transform MoreExamples.noting_all MoreExamples.abcde []).2
  = ["D"; "B"; "E"; "C"; "A"]
  /\ (Transformer_InPlace.transform MoreExamples.noting_all 0 [3; 1; 4; 2; 0] 0
        (MoreExamples.abcde_objects, [])).2.2
     = ["D"; "E"; "B"; "C"; "A"].
Proof. split; reflexivity. Qed.
